(** * The ToDo gRPC service (package v1 of go-grpc-example)

    A shallow embedding of the request handlers [Create], [Read], [Update],
    [Delete] and [ReadAll] of [toDoServiceServer], together with the parts of
    their collaborators that decide what they return: Go's [time.Unix], the
    [ptypes] timestamp conversions, [status.Errorf], the [database/sql]
    cursor and [Scan], and a relational table [ToDo] behind the connection
    pool.

    Handlers are written in a small state-and-error monad over a [World]: the
    table, a trace of the database calls made so far, and the faults the
    database layer answers with (every [err != nil] branch of the source is
    kept). *)

From Stdlib Require Import ZArith List String Ascii Bool Lia DecimalString.
Import ListNotations.
Open Scope string_scope.
Open Scope Z_scope.

(** ** Machine integers *)

(** Conversion to Go's [int64] and [int32]: two's complement wrap-around. *)
Definition int64 (z : Z) : Z := (z + 2 ^ 63) mod 2 ^ 64 - 2 ^ 63.
Definition int32 (z : Z) : Z := (z + 2 ^ 31) mod 2 ^ 32 - 2 ^ 31.

(** Go's [error] values are observed by the handlers only through their
    [Error()] text, which [%+v] prints; [nil] is [None]. *)
Definition error : Type := string.

(** ** Package fmt: the verbs the handlers use *)

Module fmt.

Inductive Arg : Type :=
| AString (s : string)
| AInt64 (z : Z)
| AError (e : error).

(** [%d] of an integer *)
Definition decimal (z : Z) : string := NilZero.string_of_int (Z.to_int z).

(** Each of [%s], [%d] and [%+v] is applied in the source to an operand of
    its own kind (a string, an int64, an error), where it prints the
    operand's plain text. *)
Definition operand (a : Arg) : string :=
  match a with
  | AString s => s
  | AInt64 z => decimal z
  | AError e => e
  end.

Definition verb (args : list Arg) (missing : string) : string * list Arg :=
  match args with
  | a :: args' => (operand a, args')
  | [] => (missing, [])
  end.

Fixpoint Sprintf (format : string) (args : list Arg) : string :=
  match format with
  | EmptyString => EmptyString
  | String "%" (String "s" rest) =>
      let (out, args') := verb args "%!s(MISSING)" in out ++ Sprintf rest args'
  | String "%" (String "d" rest) =>
      let (out, args') := verb args "%!d(MISSING)" in out ++ Sprintf rest args'
  | String "%" (String "+" (String "v" rest)) =>
      let (out, args') := verb args "%!v(MISSING)" in out ++ Sprintf rest args'
  | String c rest => String c (Sprintf rest args)
  end.

End fmt.

(** ** Package codes and status *)

Module codes.
(** The gRPC codes this service returns. *)
Inductive Code : Type := InvalidArgument | NotFound | Unimplemented | Internal.

Definition eqb (a b : Code) : bool :=
  match a, b with
  | InvalidArgument, InvalidArgument | NotFound, NotFound
  | Unimplemented, Unimplemented | Internal, Internal => true
  | _, _ => false
  end.
End codes.

Module status.
Record Status : Type := { Code : codes.Code; Message : string }.

Definition Errorf (c : codes.Code) (format : string) (args : list fmt.Arg) : Status :=
  {| Code := c; Message := fmt.Sprintf format args |}.
End status.

(** ** Package time *)

Module time.

Inductive Location : Type := Local | UTCLocation.

(** A [time.Time]: seconds and nanoseconds since the Unix epoch, and the
    location it is presented in. *)
Record Time : Type := { sec : Z; nsec : Z; loc : Location }.

(** The zero value of a declared [time.Time] variable:
    January 1, year 1, 00:00:00 UTC. *)
Definition zero : Time := {| sec := -62135596800; nsec := 0; loc := UTCLocation |}.

(** [time.Unix(sec, nsec)]: nanoseconds outside [0, 1e9) are carried into
    the seconds; Go's [/] truncates toward zero. *)
Definition Unix (s n : Z) : Time :=
  if (n <? 0) || (n >=? 1000000000) then
    let q := Z.quot n 1000000000 in
    let s := int64 (s + q) in
    let n := int64 (n - int64 (q * 1000000000)) in
    if n <? 0
    then {| sec := int64 (s - 1); nsec := n + 1000000000; loc := Local |}
    else {| sec := s; nsec := n; loc := Local |}
  else {| sec := s; nsec := n; loc := Local |}.

(** [t.UTC()] *)
Definition UTC (t : Time) : Time :=
  {| sec := sec t; nsec := nsec t; loc := UTCLocation |}.

(** [t.Unix()] and [t.Nanosecond()] *)
Definition Time_Unix (t : Time) : Z := sec t.
Definition Nanosecond (t : Time) : Z := nsec t.

Definition Location_eqb (a b : Location) : bool :=
  match a, b with
  | Local, Local | UTCLocation, UTCLocation => true
  | _, _ => false
  end.

Definition eqb (a b : Time) : bool :=
  (sec a =? sec b) && (nsec a =? nsec b) && Location_eqb (loc a) (loc b).

End time.

(** ** The wire timestamp and package ptypes *)

Module tspb.
(** [google.protobuf.Timestamp]: [Seconds] is an int64, [Nanos] an int32. *)
Record Timestamp : Type := { Seconds : Z; Nanos : Z }.

(** [%v] of the message, in the compact text form: a field that is zero is
    left out. *)
Definition String (ts : Timestamp) : string :=
  (if Seconds ts =? 0 then "" else "seconds:" ++ fmt.decimal (Seconds ts) ++ " ")
  ++ (if Nanos ts =? 0 then "" else "nanos:" ++ fmt.decimal (Nanos ts) ++ " ").
End tspb.

Module ptypes.

(** Seconds of 0001-01-01T00:00:00Z and of 10000-01-01T00:00:00Z. *)
Definition minValidSeconds : Z := -62135596800.
Definition maxValidSeconds : Z := 253402300800.

Definition validateTimestamp (ts : option tspb.Timestamp) : option error :=
  match ts with
  | None => Some "timestamp: nil Timestamp"
  | Some ts =>
      if tspb.Seconds ts <? minValidSeconds then
        Some ("timestamp: " ++ tspb.String ts ++ " before 0001-01-01")
      else if tspb.Seconds ts >=? maxValidSeconds then
        Some ("timestamp: " ++ tspb.String ts ++ " after 10000-01-01")
      else if (tspb.Nanos ts <? 0) || (tspb.Nanos ts >=? 1000000000) then
        Some ("timestamp: " ++ tspb.String ts ++ ": nanos not in range [0, 1e9)")
      else None
  end.

(** [ptypes.Timestamp]: the time is computed even when the validation
    fails; a nil timestamp is read as the empty one. *)
Definition Timestamp (ts : option tspb.Timestamp) : time.Time * option error :=
  let t :=
    match ts with
    | None => time.UTC (time.Unix 0 0)
    | Some ts' => time.UTC (time.Unix (tspb.Seconds ts') (tspb.Nanos ts'))
    end in
  (t, validateTimestamp ts).

(** [ptypes.TimestampProto] *)
Definition TimestampProto (t : time.Time) : option tspb.Timestamp * option error :=
  let ts := {| tspb.Seconds := time.Time_Unix t;
               tspb.Nanos := int32 (time.Nanosecond t) |} in
  match validateTimestamp (Some ts) with
  | Some err => (None, Some err)
  | None => (Some ts, None)
  end.

End ptypes.

(** ** Package v1 of the API: the generated messages *)

Module v1.

(** Modelled from the spec: the generated message type [ToDo] of
    [pkg/api/v1], which is not among the sources (section 3: id, title,
    description and reminder). A message field is a pointer and may be
    nil. *)
Record ToDo : Type :=
  { Id : Z; Title : string; Description : string;
    Reminder : option tspb.Timestamp }.

(** The value [new(v1.ToDo)] and [var td v1.ToDo] start from. *)
Definition ToDo_zero : ToDo :=
  {| Id := 0; Title := ""; Description := ""; Reminder := None |}.

(** The generated accessors answer the zero value on a nil receiver. *)
Definition GetId (m : option ToDo) : Z :=
  match m with Some x => Id x | None => 0 end.
Definition GetTitle (m : option ToDo) : string :=
  match m with Some x => Title x | None => "" end.
Definition GetDescription (m : option ToDo) : string :=
  match m with Some x => Description x | None => "" end.
Definition GetReminder (m : option ToDo) : option tspb.Timestamp :=
  match m with Some x => Reminder x | None => None end.

(** Modelled from the spec: the request and response messages of
    [pkg/api/v1] (section 6: each request has an [api] field besides the
    operation's input, each response an [api] field besides its result). *)
Module CreateRequest.
Record t : Type := { Api : string; ToDo : option v1.ToDo }.
End CreateRequest.
Module CreateResponse.
Record t : Type := { Api : string; Id : Z }.
End CreateResponse.

Module ReadRequest.
Record t : Type := { Api : string; Id : Z }.
End ReadRequest.
Module ReadResponse.
Record t : Type := { Api : string; ToDo : option v1.ToDo }.
End ReadResponse.

Module UpdateRequest.
Record t : Type := { Api : string; ToDo : option v1.ToDo }.
End UpdateRequest.
Module UpdateResponse.
Record t : Type := { Api : string; Updated : Z }.
End UpdateResponse.

Module DeleteRequest.
Record t : Type := { Api : string; Id : Z }.
End DeleteRequest.
Module DeleteResponse.
Record t : Type := { Api : string; Deleted : Z }.
End DeleteResponse.

Module ReadAllRequest.
Record t : Type := { Api : string }.
End ReadAllRequest.
Module ReadAllResponse.
Record t : Type := { Api : string; ToDos : list v1.ToDo }.
End ReadAllResponse.

End v1.

(** ** The table and package database/sql *)

Module sql.

(** A row of [ToDo(ID, Title, Description, Reminder)]. *)
Record Row : Type :=
  { ID : Z; Title : string; Description : string; Reminder : time.Time }.

(** The table in the order the storage engine returns its rows, and the
    identifier the engine assigns to the next inserted row. The list may
    hold several rows with one identifier: [Read] has a branch for it. *)
Record Table : Type := { rows : list Row; AUTO_INCREMENT : Z }.

Definition hasID (id : Z) (r : Row) : bool := ID r =? id.

(** [SELECT ... FROM ToDo WHERE ID=?] *)
Definition select_by_id (id : Z) (t : Table) : list Row :=
  filter (hasID id) (rows t).

(** [SELECT ... FROM ToDo] *)
Definition select_all (t : Table) : list Row := rows t.

(** The statements the handlers execute, with their bound arguments. *)
Inductive Stmt : Type :=
| INSERT (title description : string) (reminder : time.Time)
| UPDATE (title description : string) (reminder : time.Time) (id : Z)
| DELETE (id : Z).

Inductive Query : Type :=
| SELECT_WHERE_ID (id : Z)
| SELECT_ALL.

(** What [ExecContext] returns: the values behind [LastInsertId()] and
    [RowsAffected()]. *)
Record Result : Type := { lastInsertId : Z; rowsAffected : Z }.

Definition assign (title description : string) (reminder : time.Time) (r : Row) : Row :=
  {| ID := ID r; Title := title; Description := description; Reminder := reminder |}.

Definition unchanged (title description : string) (reminder : time.Time) (r : Row) : bool :=
  String.eqb (Title r) title && String.eqb (Description r) description
  && time.eqb (Reminder r) reminder.

(** The rows an UPDATE reports as affected: the rows it matched when the
    connection counts found rows, otherwise the matched rows whose values
    it changed (the two settings of the MySQL protocol). *)
Definition affected_by_update (foundRows : bool) (title description : string)
    (reminder : time.Time) (id : Z) (t : Table) : list Row :=
  filter (fun r => hasID id r && (foundRows || negb (unchanged title description reminder r)))
         (rows t).

(** The effect of a statement on the table. *)
Definition run (foundRows : bool) (s : Stmt) (t : Table) : Result * Table :=
  match s with
  | INSERT title description reminder =>
      let id := AUTO_INCREMENT t in
      ({| lastInsertId := id; rowsAffected := 1 |},
       {| rows := rows t ++ [ {| ID := id; Title := title;
                                 Description := description; Reminder := reminder |} ];
          AUTO_INCREMENT := id + 1 |})
  | UPDATE title description reminder id =>
      ({| lastInsertId := 0;
          rowsAffected :=
            Z.of_nat (List.length (affected_by_update foundRows title description reminder id t)) |},
       {| rows := map (fun r => if hasID id r then assign title description reminder r else r)
                      (rows t);
          AUTO_INCREMENT := AUTO_INCREMENT t |})
  | DELETE id =>
      ({| lastInsertId := 0;
          rowsAffected := Z.of_nat (List.length (select_by_id id t)) |},
       {| rows := filter (fun r => negb (hasID id r)) (rows t);
          AUTO_INCREMENT := AUTO_INCREMENT t |})
  end.

(** A [*sql.Rows] cursor: the row [Next] last moved to (what [Scan] reads),
    the rows still to come, and the error that ended the iteration. *)
Record Rows : Type :=
  { lastcols : option Row; pending : list Row; lasterr : option error }.

(** [rows.Next()] *)
Definition Next (rs : Rows) : bool * Rows :=
  match pending rs with
  | r :: rest => (true, {| lastcols := Some r; pending := rest; lasterr := lasterr rs |})
  | [] => (false, {| lastcols := None; pending := []; lasterr := lasterr rs |})
  end.

(** [rows.Err()] *)
Definition Err (rs : Rows) : option error := lasterr rs.

(** A destination handed to [Scan] for a column of Go type [A], with the
    local variables [L] of the caller: a pointer, through which the column
    is stored, or a plain value of that type, which is no pointer. *)
Inductive Dest (L A : Type) : Type :=
| Pointer (store : A -> L -> L)
| Value (v : A).
Arguments Pointer {L A} store.
Arguments Value {L A} v.

(** [convertAssign] into one destination. *)
Definition convertAssign {L A : Type} (dest : Dest L A) (src : A) (l : L) : option error * L :=
  match dest with
  | Pointer store => (None, store src l)
  | Value _ => (Some "destination not a pointer", l)
  end.

Definition quote (s : string) : string :=
  String (ascii_of_nat 34) s ++ String (ascii_of_nat 34) EmptyString.

Definition scanError (index : Z) (name : string) (err : error) : error :=
  "sql: Scan error on column index " ++ fmt.decimal index ++ ", name "
  ++ quote name ++ ": " ++ err.

(** [rows.Scan(dest...)] for the four selected columns, assigned in order;
    the first destination that fails ends the scan. *)
Definition Scan {L : Type} (rs : Rows)
    (dID : Dest L Z) (dTitle dDescription : Dest L string) (dReminder : Dest L time.Time)
    (l : L) : option error * L :=
  match lastcols rs with
  | None => (Some "sql: Scan called without calling Next", l)
  | Some r =>
      match convertAssign dID (ID r) l with
      | (Some err, l) => (Some (scanError 0 "ID" err), l)
      | (None, l) =>
      match convertAssign dTitle (Title r) l with
      | (Some err, l) => (Some (scanError 1 "Title" err), l)
      | (None, l) =>
      match convertAssign dDescription (Description r) l with
      | (Some err, l) => (Some (scanError 2 "Description" err), l)
      | (None, l) =>
      match convertAssign dReminder (Reminder r) l with
      | (Some err, l) => (Some (scanError 3 "Reminder" err), l)
      | (None, l) => (None, l)
      end end end end
  end.

End sql.

(** ** The world a request runs in *)

(** How the database layer answers during a request: the error, if any, of
    each call the handlers check, the point at which a cursor's iteration
    breaks off, and whether an UPDATE counts the rows it found or the rows it
    changed. *)
Record Driver : Type :=
  { connErr : option error;            (* s.db.Conn(ctx) *)
    execErr : option error;            (* c.ExecContext *)
    lastInsertIdErr : option error;    (* res.LastInsertId() *)
    rowsAffectedErr : option error;    (* res.RowsAffected() *)
    queryErr : option error;           (* QueryContext *)
    iterErr : option (nat * error);    (* Next stops after that many rows; rows.Err() *)
    foundRows : bool }.

(** The handle a query is issued on: the pool [s.db] or the connection [c]. *)
Inductive Handle : Type := Pool | Connection.

(** The calls that reach the database. *)
Inductive Event : Type :=
| EvConn
| EvExec (s : sql.Stmt)
| EvQuery (h : Handle) (q : sql.Query)
| EvRowsClose
| EvConnClose.

Record World : Type :=
  { driver : Driver; table : sql.Table; trace : list Event }.

Definition record (e : Event) (w : World) : World :=
  {| driver := driver w; table := table w; trace := trace w ++ [e] |}.

(** What a handler call ends in: the response, the status error returned in
    its place, or a panic of the goroutine. *)
Inductive Outcome (A : Type) : Type :=
| Return (a : A)
| Fail (st : status.Status)
| Panic (msg : string).
Arguments Return {A} a.
Arguments Fail {A} st.
Arguments Panic {A} msg.

Definition M (A : Type) : Type := World -> Outcome A * World.

Definition ret {A} (a : A) : M A := fun w => (Return a, w).
Definition fail {A} (st : status.Status) : M A := fun w => (Fail st, w).
Definition panic {A} (msg : string) : M A := fun w => (Panic msg, w).

Definition bind {A B} (m : M A) (k : A -> M B) : M B :=
  fun w =>
    match m w with
    | (Return a, w') => k a w'
    | (Fail st, w') => (Fail st, w')
    | (Panic msg, w') => (Panic msg, w')
    end.

(** The outcome of a computation that does not touch the world. *)
Definition done {A} (out : Outcome A) : M A := fun w => (out, w).

(** A call into the database layer: it answers its Go results and never
    fails the handler by itself. *)
Definition lift {A} (f : World -> A * World) : M A :=
  fun w => let (a, w') := f w in (Return a, w').

(** [defer cleanup()] around the rest of the function body: the cleanup runs
    on every way out, a panic included. *)
Definition defer {A} (cleanup : World -> World) (body : M A) : M A :=
  fun w => let (out, w') := body w in (out, cleanup w').

(** [if err != nil { return nil, st }] *)
Definition ifErr {E} (err : option E) (st : E -> status.Status) : M unit :=
  match err with
  | Some e => fail (st e)
  | None => ret tt
  end.

(** Reading a field through a message pointer. *)
Definition deref {A} (p : option A) : M A :=
  match p with
  | Some a => ret a
  | None => panic "runtime error: invalid memory address or nil pointer dereference"
  end.

Declare Scope go_scope.
Delimit Scope go_scope with go.
Notation "x <- m ;; k" := (bind m (fun x => k))
  (at level 61, m at next level, right associativity) : go_scope.
Notation "' pat <- m ;; k" := (bind m (fun x => match x with pat => k end))
  (at level 61, pat pattern, m at next level, right associativity) : go_scope.
Notation "m ;; k" := (bind m (fun _ => k))
  (at level 61, right associativity) : go_scope.
Open Scope go_scope.

(** *** The database calls *)

Inductive Conn : Type := conn.

Definition zeroResult : sql.Result := {| sql.lastInsertId := 0; sql.rowsAffected := 0 |}.
Definition noRows : sql.Rows :=
  {| sql.lastcols := None; sql.pending := []; sql.lasterr := None |}.

(** [s.db.Conn(ctx)] *)
Definition DB_Conn (w : World) : (Conn * option error) * World :=
  ((conn, connErr (driver w)), record EvConn w).

(** [c.Close()] *)
Definition Conn_Close (w : World) : World := record EvConnClose w.

(** [c.ExecContext(ctx, stmt, args...)]: a statement that fails leaves the
    table as it was. *)
Definition ExecContext (c : Conn) (s : sql.Stmt) (w : World) : (sql.Result * option error) * World :=
  let w := record (EvExec s) w in
  match execErr (driver w) with
  | Some err => ((zeroResult, Some err), w)
  | None =>
      let (res, t) := sql.run (foundRows (driver w)) s (table w) in
      ((res, None), {| driver := driver w; table := t; trace := trace w |})
  end.

(** [res.LastInsertId()] and [res.RowsAffected()] *)
Definition LastInsertId (res : sql.Result) (w : World) : (Z * option error) * World :=
  match lastInsertIdErr (driver w) with
  | Some err => ((0, Some err), w)
  | None => ((sql.lastInsertId res, None), w)
  end.

Definition RowsAffected (res : sql.Result) (w : World) : (Z * option error) * World :=
  match rowsAffectedErr (driver w) with
  | Some err => ((0, Some err), w)
  | None => ((sql.rowsAffected res, None), w)
  end.

(** [QueryContext(ctx, query, args...)] on the pool or on a connection. *)
Definition QueryContext (h : Handle) (q : sql.Query) (w : World) : (sql.Rows * option error) * World :=
  let w := record (EvQuery h q) w in
  match queryErr (driver w) with
  | Some err => ((noRows, Some err), w)
  | None =>
      let found :=
        match q with
        | sql.SELECT_WHERE_ID id => sql.select_by_id id (table w)
        | sql.SELECT_ALL => sql.select_all (table w)
        end in
      match iterErr (driver w) with
      | Some (n, err) =>
          (({| sql.lastcols := None; sql.pending := firstn n found; sql.lasterr := Some err |},
            None), w)
      | None =>
          (({| sql.lastcols := None; sql.pending := found; sql.lasterr := None |}, None), w)
      end
  end.

(** [rows.Close()] *)
Definition Rows_Close (w : World) : World := record EvRowsClose w.

(** [for rows.Next() { body }] over the local state [S] of the loop. *)
Fixpoint forNext {S : Type} (body : sql.Rows -> S -> Outcome S)
    (pending : list sql.Row) (lasterr : option error) (s : S) : Outcome S * sql.Rows :=
  match pending with
  | [] => (Return s, {| sql.lastcols := None; sql.pending := []; sql.lasterr := lasterr |})
  | r :: rest =>
      let rs := {| sql.lastcols := Some r; sql.pending := rest; sql.lasterr := lasterr |} in
      match body rs s with
      | Return s' => forNext body rest lasterr s'
      | Fail st => (Fail st, rs)
      | Panic msg => (Panic msg, rs)
      end
  end.

(** ** The service *)

Import fmt.

(** apiVersion is version of API is provided by server *)
Definition apiVersion : string := "v1".

(** checkAPI checks if the API version requested by client is supported by
    server *)
Definition checkAPI (api : string) : option status.Status :=
  if 0 <? Z.of_nat (String.length api) then
    if negb (String.eqb apiVersion api) then
      Some (status.Errorf codes.Unimplemented
              "unsupported API version: service implements API version '%s' but asked for '%s'"
              [AString apiVersion; AString api])
    else None
  else None.

(** connect returns SQL database connection from the pool *)
Definition connect : M Conn :=
  '(c, err) <- lift DB_Conn ;;
  ifErr err (fun err =>
    status.Errorf codes.Internal "failed to connect to database, %+v" [AError err]) ;;
  ret c.

(** Create new todo task *)
Definition Create (req : v1.CreateRequest.t) : M v1.CreateResponse.t :=
  ifErr (checkAPI (v1.CreateRequest.Api req)) (fun err => err) ;;
  c <- connect ;;
  defer Conn_Close (
    todo <- deref (v1.CreateRequest.ToDo req) ;;
    let '(reminder, err) := ptypes.Timestamp (v1.Reminder todo) in
    ifErr err (fun err =>
      status.Errorf codes.InvalidArgument "reminder field has invalid format, %+v"
        [AError err]) ;;
    '(res, err) <- lift (ExecContext c
        (sql.INSERT (v1.GetTitle (v1.CreateRequest.ToDo req))
                    (v1.GetDescription (v1.CreateRequest.ToDo req)) reminder)) ;;
    ifErr err (fun err =>
      status.Errorf codes.Internal "failed to insert into ToDo, %+v" [AError err]) ;;
    '(id, err) <- lift (LastInsertId res) ;;
    ifErr err (fun err =>
      status.Errorf codes.Internal "failed to retrive id for created ToDo, %+v"
        [AError err]) ;;
    ret {| v1.CreateResponse.Api := apiVersion; v1.CreateResponse.Id := id |}).

(** The variables [td] and [reminder] that [Read] scans a row into. *)
Record ReadLocals : Type := { td : v1.ToDo; reminder : time.Time }.

Definition store_Id (v : Z) (l : ReadLocals) : ReadLocals :=
  {| td := {| v1.Id := v; v1.Title := v1.Title (td l);
              v1.Description := v1.Description (td l);
              v1.Reminder := v1.Reminder (td l) |};
     reminder := reminder l |}.
Definition store_Title (v : string) (l : ReadLocals) : ReadLocals :=
  {| td := {| v1.Id := v1.Id (td l); v1.Title := v;
              v1.Description := v1.Description (td l);
              v1.Reminder := v1.Reminder (td l) |};
     reminder := reminder l |}.
Definition store_Description (v : string) (l : ReadLocals) : ReadLocals :=
  {| td := {| v1.Id := v1.Id (td l); v1.Title := v1.Title (td l);
              v1.Description := v;
              v1.Reminder := v1.Reminder (td l) |};
     reminder := reminder l |}.
Definition store_reminder (v : time.Time) (l : ReadLocals) : ReadLocals :=
  {| td := td l; reminder := v |}.

(** [td.Reminder = ts] *)
Definition set_Reminder (ts : option tspb.Timestamp) (m : v1.ToDo) : v1.ToDo :=
  {| v1.Id := v1.Id m; v1.Title := v1.Title m;
     v1.Description := v1.Description m; v1.Reminder := ts |}.

(** Read todo task *)
Definition Read (req : v1.ReadRequest.t) : M v1.ReadResponse.t :=
  ifErr (checkAPI (v1.ReadRequest.Api req)) (fun err => err) ;;
  c <- connect ;;
  defer Conn_Close (
    '(rows, err) <- lift (QueryContext Pool (sql.SELECT_WHERE_ID (v1.ReadRequest.Id req))) ;;
    ifErr err (fun err =>
      status.Errorf codes.Internal "failed to select from ToDo, %+v" [AError err]) ;;
    defer Rows_Close (
      let '(more, rows) := sql.Next rows in
      if negb more then
        ifErr (sql.Err rows) (fun err =>
          status.Errorf codes.Internal "failed to retrieve data from ToDo, %+v"
            [AError err]) ;;
        fail (status.Errorf codes.NotFound "ToDo with ID='%d' is not found"
                [AInt64 (v1.ReadRequest.Id req)])
      else
        let locals := {| td := v1.ToDo_zero; reminder := time.zero |} in
        let '(err, locals) :=
          sql.Scan rows (sql.Pointer store_Id) (sql.Pointer store_Title)
            (sql.Pointer store_Description) (sql.Pointer store_reminder) locals in
        ifErr err (fun err =>
          status.Errorf codes.Internal "failed to retrieve field value from ToDo row, %+v"
            [AError err]) ;;
        let '(ts, err) := ptypes.TimestampProto (reminder locals) in
        let td := set_Reminder ts (td locals) in
        ifErr err (fun err =>
          status.Errorf codes.Internal "reminder field has invalid format, %+v"
            [AError err]) ;;
        let '(more, rows) := sql.Next rows in
        if more then
          fail (status.Errorf codes.Internal "found multiple ToDo rows with ID='%d'"
                  [AInt64 (v1.ReadRequest.Id req)])
        else
          ret {| v1.ReadResponse.Api := apiVersion; v1.ReadResponse.ToDo := Some td |})).

(** Update todo task *)
Definition Update (req : v1.UpdateRequest.t) : M v1.UpdateResponse.t :=
  ifErr (checkAPI (v1.UpdateRequest.Api req)) (fun err => err) ;;
  c <- connect ;;
  defer Conn_Close (
    let '(reminder, err) := ptypes.Timestamp (v1.GetReminder (v1.UpdateRequest.ToDo req)) in
    ifErr err (fun err =>
      status.Errorf codes.InvalidArgument "reminder filed has invalid format, %+v"
        [AError err]) ;;
    '(res, err) <- lift (ExecContext c
        (sql.UPDATE (v1.GetTitle (v1.UpdateRequest.ToDo req))
                    (v1.GetDescription (v1.UpdateRequest.ToDo req)) reminder
                    (v1.GetId (v1.UpdateRequest.ToDo req)))) ;;
    ifErr err (fun err =>
      status.Errorf codes.Internal "failed to update ToDo, %+v" [AError err]) ;;
    '(rows, err) <- lift (RowsAffected res) ;;
    ifErr err (fun err =>
      status.Errorf codes.Internal "failed to retrieve rows affected, %+v" [AError err]) ;;
    if rows =? 0 then
      fail (status.Errorf codes.NotFound "ToDo with ID='%d' is not found"
              [AInt64 (v1.GetId (v1.UpdateRequest.ToDo req))])
    else
      ret {| v1.UpdateResponse.Api := apiVersion; v1.UpdateResponse.Updated := rows |}).

(** Delete todo task *)
Definition Delete (req : v1.DeleteRequest.t) : M v1.DeleteResponse.t :=
  ifErr (checkAPI (v1.DeleteRequest.Api req)) (fun err => err) ;;
  c <- connect ;;
  defer Conn_Close (
    '(res, err) <- lift (ExecContext c (sql.DELETE (v1.DeleteRequest.Id req))) ;;
    ifErr err (fun err =>
      status.Errorf codes.Internal "failed to delete ToDo, %+v" [AError err]) ;;
    '(rows, err) <- lift (RowsAffected res) ;;
    ifErr err (fun err =>
      status.Errorf codes.Internal "failed to retrieve rows affected, %+v" [AError err]) ;;
    if rows =? 0 then
      fail (status.Errorf codes.NotFound "ToDo with ID='%d' is not found"
              [AInt64 (v1.DeleteRequest.Id req)])
    else
      ret {| v1.DeleteResponse.Api := apiVersion; v1.DeleteResponse.Deleted := rows |}).

(** The body of the loop of [ReadAll], on its variables [reminder] (declared
    before the loop) and [list]. The first three destinations of [Scan] are
    the values of the fields of the new [td], not their addresses. *)
Definition ReadAll_body (rows : sql.Rows) (s : time.Time * list v1.ToDo)
  : Outcome (time.Time * list v1.ToDo) :=
  let '(reminder, list) := s in
  let td := v1.ToDo_zero in
  let '(err, reminder) :=
    sql.Scan rows (sql.Value (v1.Id td)) (sql.Value (v1.Title td))
      (sql.Value (v1.Description td)) (sql.Pointer (fun v _ => v)) reminder in
  match err with
  | Some err =>
      Fail (status.Errorf codes.Internal "failed to retrieve field value from rows, %+v"
              [AError err])
  | None =>
      let '(ts, err) := ptypes.TimestampProto reminder in
      let td := set_Reminder ts td in
      match err with
      | Some err =>
          Fail (status.Errorf codes.Internal "reminder field has invalid format, %+v"
                  [AError err])
      | None => Return (reminder, (list ++ [td])%list)
      end
  end.

(** Read all todo taks *)
Definition ReadAll (req : v1.ReadAllRequest.t) : M v1.ReadAllResponse.t :=
  ifErr (checkAPI (v1.ReadAllRequest.Api req)) (fun err => err) ;;
  c <- connect ;;
  defer Conn_Close (
    '(rows, err) <- lift (QueryContext Connection sql.SELECT_ALL) ;;
    ifErr err (fun err =>
      status.Errorf codes.Internal "failed to select from ToDo, %+v" [AError err]) ;;
    defer Rows_Close (
      let '(out, rows) :=
        forNext ReadAll_body (sql.pending rows) (sql.lasterr rows) (time.zero, []) in
      '(_, list) <- done out ;;
      ifErr (sql.Err rows) (fun err =>
        status.Errorf codes.Internal "failed to retrieve data from ToDo rows, %+v"
          [AError err]) ;;
      ret {| v1.ReadAllResponse.Api := apiVersion; v1.ReadAllResponse.ToDos := list |})).

(** The five methods of the [v1.ToDoServiceServer] interface, by request. *)
Inductive Request : Type :=
| CreateReq (r : v1.CreateRequest.t)
| ReadReq (r : v1.ReadRequest.t)
| UpdateReq (r : v1.UpdateRequest.t)
| DeleteReq (r : v1.DeleteRequest.t)
| ReadAllReq (r : v1.ReadAllRequest.t).

Inductive Response : Type :=
| CreateResp (r : v1.CreateResponse.t)
| ReadResp (r : v1.ReadResponse.t)
| UpdateResp (r : v1.UpdateResponse.t)
| DeleteResp (r : v1.DeleteResponse.t)
| ReadAllResp (r : v1.ReadAllResponse.t).

Definition request_api (r : Request) : string :=
  match r with
  | CreateReq r => v1.CreateRequest.Api r
  | ReadReq r => v1.ReadRequest.Api r
  | UpdateReq r => v1.UpdateRequest.Api r
  | DeleteReq r => v1.DeleteRequest.Api r
  | ReadAllReq r => v1.ReadAllRequest.Api r
  end.

Definition response_api (r : Response) : string :=
  match r with
  | CreateResp r => v1.CreateResponse.Api r
  | ReadResp r => v1.ReadResponse.Api r
  | UpdateResp r => v1.UpdateResponse.Api r
  | DeleteResp r => v1.DeleteResponse.Api r
  | ReadAllResp r => v1.ReadAllResponse.Api r
  end.

Definition serve (r : Request) : M Response :=
  match r with
  | CreateReq r => x <- Create r ;; ret (CreateResp x)
  | ReadReq r => x <- Read r ;; ret (ReadResp x)
  | UpdateReq r => x <- Update r ;; ret (UpdateResp x)
  | DeleteReq r => x <- Delete r ;; ret (DeleteResp x)
  | ReadAllReq r => x <- ReadAll r ;; ret (ReadAllResp x)
  end.

(** * Properties *)

(** The database layer answers every call of the request without an error. *)
Definition healthy (d : Driver) : Prop :=
  connErr d = None /\ execErr d = None /\ lastInsertIdErr d = None
  /\ rowsAffectedErr d = None /\ queryErr d = None /\ iterErr d = None.

(** The storage engine's guarantees on the table: an identifier it will
    assign is above every identifier in use, and [ID] is a key. *)
Definition fresh_ids (t : sql.Table) : Prop :=
  Forall (fun r => sql.ID r < sql.AUTO_INCREMENT t) (sql.rows t).

Definition unique_ids (t : sql.Table) : Prop :=
  NoDup (map sql.ID (sql.rows t)).

(** *** Sample worlds *)

Definition healthyDriver : Driver :=
  {| connErr := None; execErr := None; lastInsertIdErr := None;
     rowsAffectedErr := None; queryErr := None; iterErr := None;
     foundRows := false |}.

(** The empty table of a fresh schema. *)
Definition emptyWorld : World :=
  {| driver := healthyDriver;
     table := {| sql.rows := []; sql.AUTO_INCREMENT := 1 |};
     trace := [] |}.

(** 2023-11-14T22:13:20.123456789Z *)
Definition sampleReminder : tspb.Timestamp :=
  {| tspb.Seconds := 1700000000; tspb.Nanos := 123456789 |}.

Definition milk : v1.ToDo :=
  {| v1.Id := 0; v1.Title := "Buy milk"; v1.Description := "2%";
     v1.Reminder := Some sampleReminder |}.

Definition milkRow : sql.Row :=
  {| sql.ID := 1; sql.Title := "Buy milk"; sql.Description := "2%";
     sql.Reminder := {| time.sec := 1700000000; time.nsec := 123456789;
                        time.loc := time.UTCLocation |} |}.

(** The table after [milk] was created in the empty one. *)
Definition milkWorld : World :=
  {| driver := healthyDriver;
     table := {| sql.rows := [milkRow]; sql.AUTO_INCREMENT := 2 |};
     trace := [] |}.

(** A table whose only row holds the instant 10000-01-01T00:00:00Z, one
    second past the last instant a wire timestamp can carry. *)
Definition lateRow : sql.Row :=
  {| sql.ID := 1; sql.Title := "Buy milk"; sql.Description := "2%";
     sql.Reminder := {| time.sec := 253402300800; time.nsec := 0;
                        time.loc := time.UTCLocation |} |}.

Definition lateWorld : World :=
  {| driver := healthyDriver;
     table := {| sql.rows := [lateRow]; sql.AUTO_INCREMENT := 2 |};
     trace := [] |}.

(** The table of [milkWorld] behind a pool that gives no connection. *)
Definition refusedWorld : World :=
  {| driver := {| connErr := Some "dial tcp: connection refused";
                  execErr := None; lastInsertIdErr := None;
                  rowsAffectedErr := None; queryErr := None;
                  iterErr := None; foundRows := false |};
     table := table milkWorld; trace := [] |}.

(** *** Proof automation *)

Arguments ptypes.Timestamp : simpl never.
Arguments ptypes.TimestampProto : simpl never.
Arguments status.Errorf : simpl never.
Arguments checkAPI : simpl never.
Arguments sql.select_by_id : simpl never.
Arguments sql.affected_by_update : simpl never.

(** Opens a world whose driver is healthy. *)
Ltac healthy_world w H :=
  let c := fresh "c" in
  destruct w as [[c ? ? ? ? ? ?] ? ?];
  unfold healthy in H; cbn in H;
  destruct H as (-> & -> & -> & -> & -> & ->).

(** Runs the monad of a handler as far as the known facts allow. *)
Ltac run :=
  unfold bind, ifErr, connect, lift, defer, deref, done, ret, fail, panic,
    DB_Conn, ExecContext, LastInsertId, RowsAffected, QueryContext,
    Conn_Close, Rows_Close, record; cbn.

(** ** The version guard *)

Lemma checkAPI_empty : checkAPI "" = None.
Proof. reflexivity. Qed.

Lemma checkAPI_current : checkAPI apiVersion = None.
Proof. reflexivity. Qed.

Lemma checkAPI_accepts (api : string) :
  checkAPI api = None <-> api = "" \/ api = apiVersion.
Proof.
  split.
  - unfold checkAPI. destruct api as [|c rest]; [now left|].
    cbn [String.length]. rewrite Nat2Z.inj_succ.
    replace (0 <? Z.succ (Z.of_nat (String.length rest))) with true
      by (symmetry; apply Z.ltb_lt; lia).
    destruct (String.eqb apiVersion (String c rest)) eqn:E; [|discriminate].
    apply String.eqb_eq in E. intros _. right. now symmetry.
  - intros [-> | ->]; reflexivity.
Qed.

Lemma checkAPI_rejects (api : string) :
  api <> "" -> api <> apiVersion ->
  checkAPI api =
    Some {| status.Code := codes.Unimplemented;
            status.Message :=
              "unsupported API version: service implements API version '"
              ++ apiVersion ++ "' but asked for '" ++ api ++ "'" |}.
Proof.
  intros Hne Hv. unfold checkAPI.
  destruct api as [|c rest]; [congruence|].
  cbn [String.length]. rewrite Nat2Z.inj_succ.
  replace (0 <? Z.succ (Z.of_nat (String.length rest))) with true
    by (symmetry; apply Z.ltb_lt; lia).
  destruct (String.eqb apiVersion (String c rest)) eqn:E.
  - apply String.eqb_eq in E. congruence.
  - reflexivity.
Qed.

(** ** The timestamp conversions *)

Lemma validateTimestamp_ok (ts : tspb.Timestamp) :
  ptypes.validateTimestamp (Some ts) = None <->
  ptypes.minValidSeconds <= tspb.Seconds ts < ptypes.maxValidSeconds
  /\ 0 <= tspb.Nanos ts < 1000000000.
Proof.
  unfold ptypes.validateTimestamp.
  destruct (tspb.Seconds ts <? ptypes.minValidSeconds) eqn:E1;
  [apply Z.ltb_lt in E1 | apply Z.ltb_ge in E1].
  { split; [discriminate | lia]. }
  destruct (tspb.Seconds ts >=? ptypes.maxValidSeconds) eqn:E2;
  [apply Z.geb_le in E2 | rewrite Z.geb_leb in E2; apply Z.leb_gt in E2].
  { split; [discriminate | lia]. }
  destruct (tspb.Nanos ts <? 0) eqn:E3;
  [apply Z.ltb_lt in E3 | apply Z.ltb_ge in E3]; cbn [orb].
  { split; [discriminate | lia]. }
  destruct (tspb.Nanos ts >=? 1000000000) eqn:E4;
  [apply Z.geb_le in E4 | rewrite Z.geb_leb in E4; apply Z.leb_gt in E4].
  { split; [discriminate | lia]. }
  split; [lia | reflexivity].
Qed.

Lemma int32_small (z : Z) : 0 <= z < 1000000000 -> int32 z = z.
Proof.
  intros H. unfold int32.
  rewrite Z.mod_small; lia.
Qed.

(** A valid wire timestamp is converted to a time without carrying. *)
Lemma Timestamp_valid (ts : tspb.Timestamp) :
  ptypes.validateTimestamp (Some ts) = None ->
  ptypes.Timestamp (Some ts) =
    ({| time.sec := tspb.Seconds ts; time.nsec := tspb.Nanos ts;
        time.loc := time.UTCLocation |}, None).
Proof.
  intros Hv. unfold ptypes.Timestamp. rewrite Hv.
  apply validateTimestamp_ok in Hv. destruct Hv as [_ [Hn0 Hn1]].
  unfold time.Unix.
  replace (tspb.Nanos ts <? 0) with false by (symmetry; apply Z.ltb_ge; lia).
  replace (tspb.Nanos ts >=? 1000000000) with false
    by (symmetry; rewrite Z.geb_leb; apply Z.leb_gt; lia).
  reflexivity.
Qed.

(** The conversion pair round-trips on valid wire timestamps. *)
Lemma TimestampProto_Timestamp (ts : tspb.Timestamp) :
  ptypes.validateTimestamp (Some ts) = None ->
  ptypes.TimestampProto (fst (ptypes.Timestamp (Some ts))) = (Some ts, None).
Proof.
  intros Hv. rewrite (Timestamp_valid ts Hv). cbn [fst].
  unfold ptypes.TimestampProto, time.Time_Unix, time.Nanosecond. cbn [time.sec time.nsec].
  pose proof (proj1 (validateTimestamp_ok ts) Hv) as [_ Hn].
  rewrite (int32_small _ Hn).
  destruct ts as [s n]. cbn [tspb.Seconds tspb.Nanos] in *.
  now rewrite Hv.
Qed.

(** [TimestampProto] answers a timestamp or an error, never both or none. *)
Lemma TimestampProto_cases (t : time.Time) :
  (exists ts, ptypes.TimestampProto t = (Some ts, None))
  \/ (exists err, ptypes.TimestampProto t = (None, Some err)).
Proof.
  unfold ptypes.TimestampProto.
  destruct (ptypes.validateTimestamp _) as [err|]; [right | left]; eauto.
Qed.

(** ** The table *)

Lemma hasID_true (id : Z) (r : sql.Row) : sql.hasID id r = true <-> sql.ID r = id.
Proof. unfold sql.hasID. apply Z.eqb_eq. Qed.

Lemma hasID_false (id : Z) (r : sql.Row) : sql.hasID id r = false <-> sql.ID r <> id.
Proof. unfold sql.hasID. apply Z.eqb_neq. Qed.

Lemma filter_none {A} (p : A -> bool) (l : list A) :
  Forall (fun x => p x = false) l -> filter p l = [].
Proof.
  induction 1 as [|x l Hx _ IH]; cbn; [reflexivity|].
  now rewrite Hx.
Qed.

Lemma filter_nil_none {A} (p : A -> bool) (l : list A) :
  filter p l = [] -> Forall (fun x => p x = false) l.
Proof.
  induction l as [|x l IH]; cbn; [constructor|].
  destruct (p x) eqn:E; [discriminate|]. intros H. constructor; auto.
Qed.

(** No stored row carries the identifier the engine assigns next. *)
Lemma select_next_id (t : sql.Table) :
  fresh_ids t -> sql.select_by_id (sql.AUTO_INCREMENT t) t = [].
Proof.
  intros Hf. unfold sql.select_by_id. apply filter_none.
  eapply Forall_impl; [|exact Hf].
  intros r Hr. apply hasID_false. cbv beta in Hr. lia.
Qed.

(** A key that is stored selects exactly one row. *)
Lemma select_key (id : Z) (l : list sql.Row) :
  NoDup (map sql.ID l) -> In id (map sql.ID l) ->
  List.length (filter (sql.hasID id) l) = 1%nat.
Proof.
  induction l as [|r l IH]; cbn [map filter]; intros Hnd Hin; [destruct Hin|].
  inversion Hnd as [|x xs Hnotin Hnd']; subst.
  destruct (sql.hasID id r) eqn:E.
  - apply hasID_true in E. subst id. cbn [List.length]. f_equal.
    rewrite filter_none; [reflexivity|].
    apply Forall_forall. intros r' Hr'. apply hasID_false.
    intros Heq. apply Hnotin. rewrite <- Heq. now apply in_map.
  - apply hasID_false in E. destruct Hin as [Hin|Hin]; [congruence|].
    now apply IH.
Qed.

Lemma select_after_delete (id : Z) (l : list sql.Row) :
  filter (sql.hasID id) (filter (fun r => negb (sql.hasID id r)) l) = [].
Proof.
  apply filter_none. apply Forall_forall. intros r Hr.
  apply filter_In in Hr. destruct Hr as [_ Hr].
  now apply negb_true_iff in Hr.
Qed.

(** An UPDATE that matches no row leaves the rows as they were. *)
Lemma update_no_match (id : Z) (f : sql.Row -> sql.Row) (l : list sql.Row) :
  filter (sql.hasID id) l = [] ->
  map (fun r => if sql.hasID id r then f r else r) l = l.
Proof.
  intros H. apply filter_nil_none in H.
  induction H as [|r l Hr _ IH]; cbn; [reflexivity|].
  now rewrite Hr, IH.
Qed.

Lemma affected_no_match (fr : bool) (title description : string)
    (reminder : time.Time) (id : Z) (t : sql.Table) :
  sql.select_by_id id t = [] ->
  sql.affected_by_update fr title description reminder id t = [].
Proof.
  unfold sql.select_by_id, sql.affected_by_update. intros H.
  apply filter_nil_none in H. apply filter_none.
  eapply Forall_impl; [|exact H].
  intros r Hr. cbv beta in *. now rewrite Hr.
Qed.

(** Every statement keeps the engine's guarantees. *)
Lemma run_fresh_ids (fr : bool) (s : sql.Stmt) (t : sql.Table) :
  fresh_ids t -> fresh_ids (snd (sql.run fr s t)).
Proof.
  unfold fresh_ids. intros H.
  destruct s as [ti de re | ti de re id | id]; cbn.
  - apply Forall_app. split.
    + eapply Forall_impl; [|exact H]. cbv beta. intros; lia.
    + constructor; [cbn; lia | constructor].
  - apply Forall_forall. intros r Hr. apply in_map_iff in Hr.
    destruct Hr as [r0 [<- Hr0]].
    rewrite Forall_forall in H. specialize (H r0 Hr0).
    now destruct (sql.hasID id r0).
  - apply Forall_forall. intros r Hr. apply filter_In in Hr.
    rewrite Forall_forall in H. now apply H.
Qed.

Lemma run_unique_ids (fr : bool) (s : sql.Stmt) (t : sql.Table) :
  fresh_ids t -> unique_ids t -> unique_ids (snd (sql.run fr s t)).
Proof.
  unfold fresh_ids, unique_ids. intros Hf Hu.
  destruct s as [ti de re | ti de re id | id]; cbn.
  - rewrite map_app. cbn. apply NoDup_app; [exact Hu | repeat constructor; intros [] |].
    intros x Hx [<-|[]]. apply in_map_iff in Hx. destruct Hx as [r [Hr Hin]].
    rewrite Forall_forall in Hf. specialize (Hf r Hin). cbv beta in Hf. lia.
  - rewrite map_map.
    erewrite map_ext; [exact Hu|].
    intros r. now destruct (sql.hasID id r).
  - revert Hu. clear Hf. induction (sql.rows t) as [|r l IH]; cbn; intros Hu; [constructor|].
    inversion Hu as [|x xs Hnotin Hnd]; subst.
    destruct (sql.hasID id r); cbn; auto.
    constructor; auto.
    intros Hin. apply Hnotin. apply in_map_iff in Hin. destruct Hin as [r' [Heq Hr']].
    apply filter_In in Hr'. rewrite <- Heq. apply in_map. tauto.
Qed.

(** ** The handlers on a healthy database *)

Lemma healthy_sample : healthy healthyDriver.
Proof. repeat split. Qed.

(** [Create] of a message with a valid reminder: the response carries the
    identifier the engine assigned, and the table gained the row. *)
Lemma Create_healthy (w : World) (req : v1.CreateRequest.t) (todo : v1.ToDo)
    (ts : tspb.Timestamp) :
  healthy (driver w) ->
  checkAPI (v1.CreateRequest.Api req) = None ->
  v1.CreateRequest.ToDo req = Some todo ->
  v1.Reminder todo = Some ts ->
  ptypes.validateTimestamp (Some ts) = None ->
  let stmt := sql.INSERT (v1.Title todo) (v1.Description todo)
                (fst (ptypes.Timestamp (Some ts))) in
  Create req w
  = (Return {| v1.CreateResponse.Api := apiVersion;
               v1.CreateResponse.Id := sql.AUTO_INCREMENT (table w) |},
     {| driver := driver w;
        table := snd (sql.run (foundRows (driver w)) stmt (table w));
        trace := ((trace w ++ [EvConn]) ++ [EvExec stmt]) ++ [EvConnClose] |}).
Proof.
  intros Hh Ha Ht Hr Hv.
  healthy_world w Hh.
  unfold Create. rewrite Ha, Ht. run. rewrite Hr.
  rewrite (Timestamp_valid ts Hv). cbn. reflexivity.
Qed.

(** [Read] leaves the table alone and, on a healthy database, answers by
    the rows the identifier selects. *)
Lemma Read_table (w : World) (req : v1.ReadRequest.t) :
  table (snd (Read req w)) = table w.
Proof.
  destruct w as [[c e li ra q it fr] t tr].
  unfold Read. destruct (checkAPI (v1.ReadRequest.Api req)); run; [reflexivity|].
  destruct c; cbn; [reflexivity|].
  destruct q; cbn; [reflexivity|].
  destruct it as [[n err]|]; cbn.
  - destruct (firstn n _) as [|r [|r' l]]; cbn; try reflexivity;
      destruct (ptypes.TimestampProto _) as [ts [err'|]]; reflexivity.
  - destruct (sql.select_by_id _ _) as [|r [|r' l]]; cbn; try reflexivity;
      destruct (ptypes.TimestampProto _) as [ts [err'|]]; reflexivity.
Qed.

Lemma Read_healthy_none (w : World) (req : v1.ReadRequest.t) :
  healthy (driver w) ->
  checkAPI (v1.ReadRequest.Api req) = None ->
  sql.select_by_id (v1.ReadRequest.Id req) (table w) = [] ->
  fst (Read req w)
  = Fail (status.Errorf codes.NotFound "ToDo with ID='%d' is not found"
            [AInt64 (v1.ReadRequest.Id req)]).
Proof.
  intros Hh Ha Hs.
  healthy_world w Hh. cbn [table] in Hs.
  unfold Read. rewrite Ha. run. rewrite Hs. reflexivity.
Qed.

Lemma Read_healthy_one (w : World) (req : v1.ReadRequest.t) (r : sql.Row) :
  healthy (driver w) ->
  checkAPI (v1.ReadRequest.Api req) = None ->
  sql.select_by_id (v1.ReadRequest.Id req) (table w) = [r] ->
  fst (Read req w)
  = match ptypes.TimestampProto (sql.Reminder r) with
    | (ts, None) =>
        Return {| v1.ReadResponse.Api := apiVersion;
                  v1.ReadResponse.ToDo :=
                    Some {| v1.Id := sql.ID r; v1.Title := sql.Title r;
                            v1.Description := sql.Description r;
                            v1.Reminder := ts |} |}
    | (_, Some err) =>
        Fail (status.Errorf codes.Internal "reminder field has invalid format, %+v"
                [AError err])
    end.
Proof.
  intros Hh Ha Hs.
  healthy_world w Hh. cbn [table] in Hs.
  unfold Read. rewrite Ha. run. rewrite Hs. cbn.
  destruct (ptypes.TimestampProto (sql.Reminder r)) as [ts [err|]]; reflexivity.
Qed.

Lemma Read_healthy_many (w : World) (req : v1.ReadRequest.t)
    (r r' : sql.Row) (l : list sql.Row) :
  healthy (driver w) ->
  checkAPI (v1.ReadRequest.Api req) = None ->
  sql.select_by_id (v1.ReadRequest.Id req) (table w) = r :: r' :: l ->
  fst (Read req w)
  = match ptypes.TimestampProto (sql.Reminder r) with
    | (_, None) =>
        Fail (status.Errorf codes.Internal "found multiple ToDo rows with ID='%d'"
                [AInt64 (v1.ReadRequest.Id req)])
    | (_, Some err) =>
        Fail (status.Errorf codes.Internal "reminder field has invalid format, %+v"
                [AError err])
    end.
Proof.
  intros Hh Ha Hs.
  healthy_world w Hh. cbn [table] in Hs.
  unfold Read. rewrite Ha. run. rewrite Hs. cbn.
  destruct (ptypes.TimestampProto (sql.Reminder r)) as [ts [err|]]; reflexivity.
Qed.

(** ** Create and Read *)

(** C1. On a healthy database whose engine assigns fresh identifiers, a
    Create of a to-do item with a valid wire timestamp succeeds, and a Read
    of the identifier it returned yields the entity with exactly the title,
    the description and the reminder (seconds and nanoseconds) submitted. *)
Theorem Create_then_Read_roundtrip (w : World) (api api' : string)
    (todo : v1.ToDo) (ts : tspb.Timestamp) :
  healthy (driver w) ->
  fresh_ids (table w) ->
  checkAPI api = None ->
  checkAPI api' = None ->
  v1.Reminder todo = Some ts ->
  snd (ptypes.Timestamp (Some ts)) = None ->
  exists (id : Z) (w1 : World),
    Create {| v1.CreateRequest.Api := api; v1.CreateRequest.ToDo := Some todo |} w
    = (Return {| v1.CreateResponse.Api := apiVersion; v1.CreateResponse.Id := id |}, w1)
    /\ fst (Read {| v1.ReadRequest.Api := api'; v1.ReadRequest.Id := id |} w1)
       = Return {| v1.ReadResponse.Api := apiVersion;
                   v1.ReadResponse.ToDo :=
                     Some {| v1.Id := id; v1.Title := v1.Title todo;
                             v1.Description := v1.Description todo;
                             v1.Reminder := Some ts |} |}.
Proof.
  intros Hh Hf Ha Ha' Hr Hv. cbn [snd ptypes.Timestamp] in Hv.
  change (ptypes.validateTimestamp (Some ts) = None) in Hv.
  eexists. eexists. split.
  - apply (Create_healthy w _ todo ts); auto.
  - set (row := {| sql.ID := sql.AUTO_INCREMENT (table w);
                   sql.Title := v1.Title todo;
                   sql.Description := v1.Description todo;
                   sql.Reminder := fst (ptypes.Timestamp (Some ts)) |}).
    rewrite (Read_healthy_one _ _ row); auto.
    + unfold row. cbn [sql.Reminder sql.ID sql.Title sql.Description].
      now rewrite (TimestampProto_Timestamp ts Hv).
    + cbn [table sql.run snd v1.ReadRequest.Id].
      unfold sql.select_by_id. cbn [sql.rows].
      rewrite filter_app.
      fold (sql.select_by_id (sql.AUTO_INCREMENT (table w)) (table w)).
      rewrite (select_next_id _ Hf). cbn [filter app].
      unfold sql.hasID at 1. cbn [sql.ID]. now rewrite Z.eqb_refl.
Qed.

Lemma Create_then_Read_roundtrip_witness :
  exists (id : Z) (w1 : World),
    Create {| v1.CreateRequest.Api := "v1"; v1.CreateRequest.ToDo := Some milk |} emptyWorld
    = (Return {| v1.CreateResponse.Api := apiVersion; v1.CreateResponse.Id := id |}, w1)
    /\ fst (Read {| v1.ReadRequest.Api := ""; v1.ReadRequest.Id := id |} w1)
       = Return {| v1.ReadResponse.Api := apiVersion;
                   v1.ReadResponse.ToDo :=
                     Some {| v1.Id := id; v1.Title := "Buy milk";
                             v1.Description := "2%";
                             v1.Reminder := Some sampleReminder |} |}.
Proof.
  apply (Create_then_Read_roundtrip emptyWorld "v1" "" milk sampleReminder).
  - exact healthy_sample.
  - constructor.
  - reflexivity.
  - reflexivity.
  - reflexivity.
  - reflexivity.
Defined.

(** ** Read *)

(** C2 (amended). On a healthy database and with an accepted API version,
    Read answers by the rows its identifier selects: no row gives NotFound;
    exactly one row gives the decoded entity when its stored time lies in
    the range of the wire timestamp, and an Internal error when it does not;
    more than one row gives an Internal error. The table is never changed. *)
Theorem Read_outcomes (w : World) (req : v1.ReadRequest.t) :
  healthy (driver w) ->
  checkAPI (v1.ReadRequest.Api req) = None ->
  let found := sql.select_by_id (v1.ReadRequest.Id req) (table w) in
  (List.length found = 0%nat ->
     fst (Read req w)
     = Fail (status.Errorf codes.NotFound "ToDo with ID='%d' is not found"
               [AInt64 (v1.ReadRequest.Id req)]))
  /\ (forall r : sql.Row, found = [r] ->
        (forall ts, ptypes.TimestampProto (sql.Reminder r) = (Some ts, None) ->
           fst (Read req w)
           = Return {| v1.ReadResponse.Api := apiVersion;
                       v1.ReadResponse.ToDo :=
                         Some {| v1.Id := sql.ID r; v1.Title := sql.Title r;
                                 v1.Description := sql.Description r;
                                 v1.Reminder := Some ts |} |})
        /\ (forall err, ptypes.TimestampProto (sql.Reminder r) = (None, Some err) ->
              fst (Read req w)
              = Fail (status.Errorf codes.Internal
                        "reminder field has invalid format, %+v" [AError err])))
  /\ ((List.length found > 1)%nat ->
        exists msg, fst (Read req w)
                    = Fail {| status.Code := codes.Internal; status.Message := msg |})
  /\ table (snd (Read req w)) = table w.
Proof.
  intros Hh Ha found. repeat split.
  - intros Hlen. apply Read_healthy_none; auto.
    now apply length_zero_iff_nil.
  - intros ts Hts. rewrite (Read_healthy_one w req r); auto. now rewrite Hts.
  - intros err Herr. rewrite (Read_healthy_one w req r); auto. now rewrite Herr.
  - intros Hlen. subst found.
    destruct (sql.select_by_id _ _) as [|r [|r' l]] eqn:Hs; cbn in Hlen; try lia.
    rewrite (Read_healthy_many w req r r' l); auto.
    destruct (ptypes.TimestampProto (sql.Reminder r)) as [ts [err|]];
      eexists; reflexivity.
  - apply Read_table.
Qed.

Lemma Read_outcomes_witness :
  fst (Read {| v1.ReadRequest.Api := "v1"; v1.ReadRequest.Id := 1 |} milkWorld)
  = Return {| v1.ReadResponse.Api := apiVersion;
              v1.ReadResponse.ToDo :=
                Some {| v1.Id := 1; v1.Title := "Buy milk"; v1.Description := "2%";
                        v1.Reminder := Some sampleReminder |} |}.
Proof.
  pose proof (Read_outcomes milkWorld
                {| v1.ReadRequest.Api := "v1"; v1.ReadRequest.Id := 1 |}
                healthy_sample eq_refl) as H.
  destruct H as (_ & H & _).
  destruct (H milkRow eq_refl) as [Hok _].
  exact (Hok sampleReminder eq_refl).
Defined.

(** C2, as stated, fails: with an accepted API version and exactly one row
    matching the identifier, Read answers an Internal error, not the entity,
    when the row's time is outside the range of the wire timestamp. *)
Lemma Read_single_row_unconvertible :
  healthy (driver lateWorld)
  /\ checkAPI "v1" = None
  /\ List.length (sql.select_by_id 1 (table lateWorld)) = 1%nat
  /\ fst (Read {| v1.ReadRequest.Api := "v1"; v1.ReadRequest.Id := 1 |} lateWorld)
     = Fail {| status.Code := codes.Internal;
               status.Message :=
                 "reminder field has invalid format, timestamp: seconds:253402300800  after 10000-01-01" |}.
Proof.
  split; [exact healthy_sample|].
  repeat split.
Qed.

(** ** The version guard in every handler *)

(** A request with a rejected version ends at the guard: the world it is
    answered in is the world it arrived in. *)
Lemma serve_rejected (r : Request) (w : World) (st : status.Status) :
  checkAPI (request_api r) = Some st -> serve r w = (Fail st, w).
Proof.
  intros H. destruct r as [r|r|r|r|r]; cbn [request_api] in H;
    unfold serve, Create, Read, Update, Delete, ReadAll, bind;
    rewrite H; reflexivity.
Qed.

Lemma Errorf_Code (c : codes.Code) (format : string) (args : list Arg) :
  status.Code (status.Errorf c format args) = c.
Proof. reflexivity. Qed.

(** The loop of [ReadAll] fails with Internal errors only. *)
Lemma ReadAll_body_Fail (rs : sql.Rows) (s : time.Time * list v1.ToDo)
    (st : status.Status) :
  ReadAll_body rs s = Fail st -> status.Code st = codes.Internal.
Proof.
  unfold ReadAll_body. destruct s as [rem l].
  destruct (sql.Scan _ _ _ _ _ _) as [[err|] rem'].
  - intros H. injection H as <-. reflexivity.
  - destruct (ptypes.TimestampProto rem') as [ts [err|]]; intros H.
    + injection H as <-. reflexivity.
    + discriminate.
Qed.

Lemma forNext_Fail {S : Type} (body : sql.Rows -> S -> Outcome S)
    (P : status.Status -> Prop) :
  (forall rs s st, body rs s = Fail st -> P st) ->
  forall pending lasterr s st,
    fst (forNext body pending lasterr s) = Fail st -> P st.
Proof.
  intros Hbody pending. induction pending as [|r rest IH]; intros lasterr s st; cbn.
  - discriminate.
  - destruct (body _ s) as [s'|st'|msg] eqn:E; cbn.
    + apply IH.
    + intros H. injection H as <-. eapply Hbody; eauto.
    + discriminate.
Qed.

(** The cursor a loop leaves behind reports the error the query's cursor
    was opened with. *)
Lemma forNext_lasterr {S : Type} (body : sql.Rows -> S -> Outcome S) :
  forall pending lasterr s,
    sql.Err (snd (forNext body pending lasterr s)) = lasterr.
Proof.
  intros pending. induction pending as [|r rest IH]; intros lasterr s; cbn.
  - reflexivity.
  - destruct (body _ s); cbn; auto.
Qed.

(** Only the version guard answers Unimplemented. *)
Lemma accepted_not_Unimplemented (r : Request) (w : World) (st : status.Status) :
  checkAPI (request_api r) = None ->
  fst (serve r w) = Fail st -> status.Code st <> codes.Unimplemented.
Proof.
  intros Ha. destruct w as [[c e li ra q it fr] t tr].
  destruct r as [r|r|r|r|r]; cbn [request_api] in Ha; unfold serve.
  - unfold Create. rewrite Ha. run. destruct c; cbn.
    { intros H. injection H as <-. discriminate. }
    destruct (v1.CreateRequest.ToDo r) as [todo|]; cbn; [|discriminate].
    destruct (ptypes.Timestamp (v1.Reminder todo)) as [rem [err|]]; cbn.
    { intros H. injection H as <-. discriminate. }
    destruct e; cbn.
    { intros H. injection H as <-. discriminate. }
    destruct li; cbn.
    { intros H. injection H as <-. discriminate. }
    discriminate.
  - unfold Read. rewrite Ha. run. destruct c; cbn.
    { intros H. injection H as <-. discriminate. }
    destruct q; cbn.
    { intros H. injection H as <-. discriminate. }
    destruct it as [[n err]|]; cbn;
      [destruct (firstn n _) as [|r0 [|r1 l]]
      |destruct (sql.select_by_id _ _) as [|r0 [|r1 l]]]; cbn;
      try (destruct (ptypes.TimestampProto _) as [ts [err'|]]; cbn);
      try discriminate;
      intros H; injection H as <-; discriminate.
  - unfold Update. rewrite Ha. run. destruct c; cbn.
    { intros H. injection H as <-. discriminate. }
    destruct (ptypes.Timestamp _) as [rem [err|]]; cbn.
    { intros H. injection H as <-. discriminate. }
    destruct e; cbn.
    { intros H. injection H as <-. discriminate. }
    destruct ra; cbn.
    { intros H. injection H as <-. discriminate. }
    destruct (_ =? 0); cbn; [|discriminate].
    intros H. injection H as <-. discriminate.
  - unfold Delete. rewrite Ha. run. destruct c; cbn.
    { intros H. injection H as <-. discriminate. }
    destruct e; cbn.
    { intros H. injection H as <-. discriminate. }
    destruct ra; cbn.
    { intros H. injection H as <-. discriminate. }
    destruct (_ =? 0); cbn; [|discriminate].
    intros H. injection H as <-. discriminate.
  - unfold ReadAll. rewrite Ha. run. destruct c; cbn.
    { intros H. injection H as <-. discriminate. }
    destruct q; cbn.
    { intros H. injection H as <-. discriminate. }
    destruct it as [[n err]|]; cbn.
    + destruct (forNext _ _ _ _) as [out rs] eqn:E. cbn.
      pose proof (forNext_Fail ReadAll_body _ ReadAll_body_Fail
                    (firstn n (sql.select_all t)) (Some err) (time.zero, [])) as HF.
      pose proof (forNext_lasterr ReadAll_body
                    (firstn n (sql.select_all t)) (Some err) (time.zero, [])) as HE.
      rewrite E in HF, HE. cbn [fst snd] in HF, HE.
      destruct out as [[rem l]|st'|msg]; cbn.
      * rewrite HE. cbn. intros H. injection H as <-. discriminate.
      * intros H. injection H as <-. rewrite (HF st' eq_refl). discriminate.
      * discriminate.
    + destruct (forNext _ _ _ _) as [out rs] eqn:E. cbn.
      pose proof (forNext_Fail ReadAll_body _ ReadAll_body_Fail
                    (sql.select_all t) None (time.zero, [])) as HF.
      pose proof (forNext_lasterr ReadAll_body
                    (sql.select_all t) None (time.zero, [])) as HE.
      rewrite E in HF, HE. cbn [fst snd] in HF, HE.
      destruct out as [[rem l]|st'|msg]; cbn.
      * rewrite HE. cbn. discriminate.
      * intros H. injection H as <-. rewrite (HF st' eq_refl). discriminate.
      * discriminate.
Qed.

(** A response was given only to a request whose version was accepted. *)
Lemma serve_Return_accepted (r : Request) (w w' : World) (resp : Response) :
  serve r w = (Return resp, w') -> checkAPI (request_api r) = None.
Proof.
  destruct (checkAPI (request_api r)) as [st|] eqn:E; [|reflexivity].
  rewrite (serve_rejected r w st E). discriminate.
Qed.

(** Every response carries the server's version. *)
Lemma serve_Return_api (r : Request) (w w' : World) (resp : Response) :
  serve r w = (Return resp, w') -> response_api resp = apiVersion.
Proof.
  destruct r as [r|r|r|r|r]; unfold serve, bind.
  - destruct (Create r w) as [[x|st|msg] w1] eqn:E; try discriminate.
    intros H. injection H as <- _. cbn [response_api].
    revert E. unfold Create. run.
    destruct (checkAPI _); cbn; [discriminate|].
    destruct (connErr _); cbn; [discriminate|].
    destruct (v1.CreateRequest.ToDo r) as [todo|]; cbn; [|discriminate].
    destruct (ptypes.Timestamp _) as [rem [err|]]; cbn; [discriminate|].
    destruct (execErr _); cbn; [discriminate|].
    destruct (lastInsertIdErr _); cbn; [discriminate|].
    intros H. injection H as <- _. reflexivity.
  - destruct (Read r w) as [[x|st|msg] w1] eqn:E; try discriminate.
    intros H. injection H as <- _. cbn [response_api].
    revert E. unfold Read. run.
    destruct (checkAPI _); cbn; [discriminate|].
    destruct (connErr _); cbn; [discriminate|].
    destruct (queryErr _); cbn; [discriminate|].
    destruct (iterErr _) as [[n err]|]; cbn;
      [destruct (firstn n _) as [|r0 [|r1 l]]
      |destruct (sql.select_by_id _ _) as [|r0 [|r1 l]]]; cbn;
      try (destruct (ptypes.TimestampProto _) as [ts [err'|]]; cbn);
      try discriminate;
      intros H; injection H as <- _; reflexivity.
  - destruct (Update r w) as [[x|st|msg] w1] eqn:E; try discriminate.
    intros H. injection H as <- _. cbn [response_api].
    revert E. unfold Update. run.
    destruct (checkAPI _); cbn; [discriminate|].
    destruct (connErr _); cbn; [discriminate|].
    destruct (ptypes.Timestamp _) as [rem [err|]]; cbn; [discriminate|].
    destruct (execErr _); cbn; [discriminate|].
    destruct (rowsAffectedErr _); cbn; [discriminate|].
    destruct (_ =? 0); cbn; [discriminate|].
    intros H. injection H as <- _. reflexivity.
  - destruct (Delete r w) as [[x|st|msg] w1] eqn:E; try discriminate.
    intros H. injection H as <- _. cbn [response_api].
    revert E. unfold Delete. run.
    destruct (checkAPI _); cbn; [discriminate|].
    destruct (connErr _); cbn; [discriminate|].
    destruct (execErr _); cbn; [discriminate|].
    destruct (rowsAffectedErr _); cbn; [discriminate|].
    destruct (_ =? 0); cbn; [discriminate|].
    intros H. injection H as <- _. reflexivity.
  - destruct (ReadAll r w) as [[x|st|msg] w1] eqn:E; try discriminate.
    intros H. injection H as <- _. cbn [response_api].
    revert E. unfold ReadAll. run.
    destruct (checkAPI _); cbn; [discriminate|].
    destruct (connErr _); cbn; [discriminate|].
    destruct (queryErr _); cbn; [discriminate|].
    destruct (iterErr _) as [[n err]|]; cbn;
      destruct (forNext _ _ _ _) as [[[rem l]|st'|msg'] rs]; cbn;
      try discriminate;
      destruct (sql.Err rs); cbn; try discriminate;
      intros H; injection H as <- _; reflexivity.
Qed.

(** C3. For each of the five operations, a request whose api field is
    non-empty and differs from the server's version fails with an
    Unimplemented error whose message carries the server's and the requested
    version, and the world is the one the request arrived in: no call
    reached the database (the trace is unchanged) and the table is
    untouched, whatever the database would have answered. With an empty api
    field the guard passes and no operation answers Unimplemented. *)
Theorem version_guard (r : Request) (w : World) :
  (request_api r <> "" -> request_api r <> apiVersion ->
     serve r w
     = (Fail {| status.Code := codes.Unimplemented;
                status.Message :=
                  "unsupported API version: service implements API version '"
                  ++ apiVersion ++ "' but asked for '" ++ request_api r ++ "'" |},
        w))
  /\ (request_api r = "" ->
        checkAPI (request_api r) = None
        /\ forall st, fst (serve r w) = Fail st ->
                      status.Code st <> codes.Unimplemented).
Proof.
  split.
  - intros Hne Hv. apply serve_rejected. now apply checkAPI_rejects.
  - intros He.
    assert (Ha : checkAPI (request_api r) = None) by (now rewrite He).
    split; [exact Ha|].
    intros st. now apply accepted_not_Unimplemented.
Qed.

Lemma version_guard_witness :
  serve (DeleteReq {| v1.DeleteRequest.Api := "v2"; v1.DeleteRequest.Id := 1 |}) milkWorld
  = (Fail {| status.Code := codes.Unimplemented;
             status.Message :=
               "unsupported API version: service implements API version 'v1' but asked for 'v2'" |},
     milkWorld)
  /\ checkAPI "" = None.
Proof.
  split.
  - apply (proj1 (version_guard
                    (DeleteReq {| v1.DeleteRequest.Api := "v2"; v1.DeleteRequest.Id := 1 |})
                    milkWorld)); discriminate.
  - apply (proj2 (version_guard (ReadAllReq {| v1.ReadAllRequest.Api := "" |}) emptyWorld)).
    reflexivity.
Defined.

(** ** The api field of a response *)

(** C5 (amended). The api field of every successful response, of every
    operation, is the server's fixed version; it equals the api field of the
    request whenever that field is not empty. *)
Theorem response_api_is_server_version (r : Request) (w w' : World) (resp : Response) :
  serve r w = (Return resp, w') ->
  response_api resp = apiVersion
  /\ (request_api r <> "" -> response_api resp = request_api r).
Proof.
  intros H.
  pose proof (serve_Return_api r w w' resp H) as Hv.
  split; [exact Hv|].
  intros Hne. rewrite Hv.
  apply serve_Return_accepted in H. apply checkAPI_accepts in H.
  destruct H as [H|H]; congruence.
Qed.

Lemma response_api_is_server_version_witness :
  exists (resp : Response) (w' : World),
    serve (ReadReq {| v1.ReadRequest.Api := "v1"; v1.ReadRequest.Id := 1 |}) milkWorld
    = (Return resp, w')
    /\ response_api resp = apiVersion
    /\ response_api resp
       = request_api (ReadReq {| v1.ReadRequest.Api := "v1"; v1.ReadRequest.Id := 1 |}).
Proof.
  eexists. eexists.
  assert (H : serve (ReadReq {| v1.ReadRequest.Api := "v1"; v1.ReadRequest.Id := 1 |})
                    milkWorld
              = (Return (ReadResp
                   {| v1.ReadResponse.Api := apiVersion;
                      v1.ReadResponse.ToDo :=
                        Some {| v1.Id := 1; v1.Title := "Buy milk";
                                v1.Description := "2%";
                                v1.Reminder := Some sampleReminder |} |}),
                 {| driver := healthyDriver;
                    table := table milkWorld;
                    trace := [EvConn; EvQuery Pool (sql.SELECT_WHERE_ID 1);
                              EvRowsClose; EvConnClose] |}))
    by reflexivity.
  split; [exact H|].
  destruct (response_api_is_server_version _ _ _ _ H) as [Hv He].
  split; [exact Hv|]. apply He. discriminate.
Defined.

(** C5, as stated, fails: a Create request with an empty api field succeeds
    and its response carries "v1", not the empty string of the request. *)
Lemma response_api_not_echoed :
  exists (resp : Response) (w' : World),
    serve (CreateReq {| v1.CreateRequest.Api := ""; v1.CreateRequest.ToDo := Some milk |})
          emptyWorld = (Return resp, w')
    /\ response_api resp = "v1"
    /\ response_api resp
       <> request_api
            (CreateReq {| v1.CreateRequest.Api := ""; v1.CreateRequest.ToDo := Some milk |}).
Proof.
  eexists. eexists. split; [reflexivity|].
  split; [reflexivity | discriminate].
Qed.

(** ** Update and Delete *)

(** C6. On a healthy database, an Update with an accepted API version and a
    valid reminder whose identifier matches no stored row answers NotFound,
    and the table after the call is the table before it (whichever way the
    connection counts affected rows). *)
Theorem Update_missing_id (w : World) (req : v1.UpdateRequest.t)
    (todo : v1.ToDo) (ts : tspb.Timestamp) :
  healthy (driver w) ->
  checkAPI (v1.UpdateRequest.Api req) = None ->
  v1.UpdateRequest.ToDo req = Some todo ->
  v1.Reminder todo = Some ts ->
  snd (ptypes.Timestamp (Some ts)) = None ->
  sql.select_by_id (v1.Id todo) (table w) = [] ->
  fst (Update req w)
  = Fail (status.Errorf codes.NotFound "ToDo with ID='%d' is not found"
            [AInt64 (v1.Id todo)])
  /\ table (snd (Update req w)) = table w.
Proof.
  intros Hh Ha Ht Hr Hv Hs.
  change (ptypes.validateTimestamp (Some ts) = None) in Hv.
  healthy_world w Hh. cbn [table] in Hs |- *.
  unfold Update. rewrite Ha, Ht. run. rewrite Hr.
  rewrite (Timestamp_valid ts Hv). cbn.
  rewrite (affected_no_match _ _ _ _ _ _ Hs). cbn.
  split; [reflexivity|].
  unfold sql.select_by_id in Hs.
  rewrite (update_no_match _ _ _ Hs).
  match goal with |- _ = ?t => now destruct t end.
Qed.

Lemma Update_missing_id_witness :
  fst (Update {| v1.UpdateRequest.Api := "v1"; v1.UpdateRequest.ToDo := Some milk |}
              milkWorld)
  = Fail {| status.Code := codes.NotFound;
            status.Message := "ToDo with ID='0' is not found" |}
  /\ table (snd (Update {| v1.UpdateRequest.Api := "v1";
                           v1.UpdateRequest.ToDo := Some milk |} milkWorld))
     = table milkWorld.
Proof.
  apply (Update_missing_id milkWorld
           {| v1.UpdateRequest.Api := "v1"; v1.UpdateRequest.ToDo := Some milk |}
           milk sampleReminder).
  - exact healthy_sample.
  - reflexivity.
  - reflexivity.
  - reflexivity.
  - reflexivity.
  - reflexivity.
Defined.

(** [Delete] on a healthy database. *)
Lemma Delete_healthy (w : World) (req : v1.DeleteRequest.t) :
  healthy (driver w) ->
  checkAPI (v1.DeleteRequest.Api req) = None ->
  let stmt := sql.DELETE (v1.DeleteRequest.Id req) in
  let n := Z.of_nat (List.length (sql.select_by_id (v1.DeleteRequest.Id req) (table w))) in
  Delete req w
  = (if n =? 0
     then Fail (status.Errorf codes.NotFound "ToDo with ID='%d' is not found"
                  [AInt64 (v1.DeleteRequest.Id req)])
     else Return {| v1.DeleteResponse.Api := apiVersion;
                    v1.DeleteResponse.Deleted := n |},
     {| driver := driver w;
        table := snd (sql.run (foundRows (driver w)) stmt (table w));
        trace := ((trace w ++ [EvConn]) ++ [EvExec stmt]) ++ [EvConnClose] |}).
Proof.
  intros Hh Ha. healthy_world w Hh.
  unfold Delete. rewrite Ha. run.
  destruct (Z.of_nat _ =? 0); reflexivity.
Qed.

(** C7. On a healthy database where [ID] is a key, a Delete of a stored
    identifier succeeds with a count of 1, and the Delete of the same
    identifier that follows it answers NotFound. *)
Theorem Delete_twice (w : World) (req : v1.DeleteRequest.t) :
  healthy (driver w) ->
  checkAPI (v1.DeleteRequest.Api req) = None ->
  unique_ids (table w) ->
  In (v1.DeleteRequest.Id req) (map sql.ID (sql.rows (table w))) ->
  exists w1 w2 : World,
    Delete req w
    = (Return {| v1.DeleteResponse.Api := apiVersion;
                 v1.DeleteResponse.Deleted := 1 |}, w1)
    /\ Delete req w1
       = (Fail (status.Errorf codes.NotFound "ToDo with ID='%d' is not found"
                  [AInt64 (v1.DeleteRequest.Id req)]), w2).
Proof.
  intros Hh Ha Hu Hin.
  eexists. eexists. split.
  - rewrite (Delete_healthy w req Hh Ha). cbv zeta.
    unfold sql.select_by_id. rewrite (select_key _ _ Hu Hin). reflexivity.
  - rewrite Delete_healthy; [|exact Hh|exact Ha]. cbv zeta.
    cbn [table sql.run snd]. unfold sql.select_by_id at 1. cbn [sql.rows].
    rewrite select_after_delete. reflexivity.
Qed.

Lemma Delete_twice_witness :
  exists w1 w2 : World,
    Delete {| v1.DeleteRequest.Api := "v1"; v1.DeleteRequest.Id := 1 |} milkWorld
    = (Return {| v1.DeleteResponse.Api := apiVersion;
                 v1.DeleteResponse.Deleted := 1 |}, w1)
    /\ Delete {| v1.DeleteRequest.Api := "v1"; v1.DeleteRequest.Id := 1 |} w1
       = (Fail (status.Errorf codes.NotFound "ToDo with ID='%d' is not found"
                  [AInt64 1]), w2).
Proof.
  apply (Delete_twice milkWorld {| v1.DeleteRequest.Api := "v1"; v1.DeleteRequest.Id := 1 |}).
  - exact healthy_sample.
  - reflexivity.
  - repeat constructor. intros [].
  - left. reflexivity.
Defined.

(** ** ReadAll *)

(** The loop is the iteration of [rows.Next()]. *)
Lemma forNext_Next {S : Type} (body : sql.Rows -> S -> Outcome S)
    (rs : sql.Rows) (s : S) :
  forNext body (sql.pending rs) (sql.lasterr rs) s
  = let (more, rs') := sql.Next rs in
    if more then
      match body rs' s with
      | Return s' => forNext body (sql.pending rs') (sql.lasterr rs') s'
      | Fail st => (Fail st, rs')
      | Panic msg => (Panic msg, rs')
      end
    else (Return s, rs').
Proof.
  unfold sql.Next. destruct (sql.pending rs) as [|r rest]; reflexivity.
Qed.

(** The scan of [ReadAll] fails at its first destination on every row. *)
Lemma ReadAll_body_fails (r : sql.Row) (rest : list sql.Row) (lasterr : option error)
    (s : time.Time * list v1.ToDo) :
  ReadAll_body {| sql.lastcols := Some r; sql.pending := rest; sql.lasterr := lasterr |} s
  = Fail (status.Errorf codes.Internal "failed to retrieve field value from rows, %+v"
            [AError (sql.scanError 0 "ID" "destination not a pointer")]).
Proof. destruct s as [rem l]. reflexivity. Qed.

(** C8. On a healthy database, a ReadAll with an accepted API version
    against an empty table answers the empty sequence, not an error. *)
Theorem ReadAll_empty_table (w : World) (req : v1.ReadAllRequest.t) :
  healthy (driver w) ->
  checkAPI (v1.ReadAllRequest.Api req) = None ->
  sql.rows (table w) = [] ->
  fst (ReadAll req w)
  = Return {| v1.ReadAllResponse.Api := apiVersion; v1.ReadAllResponse.ToDos := [] |}.
Proof.
  intros Hh Ha He. healthy_world w Hh. cbn [table] in He.
  unfold ReadAll. rewrite Ha. run. unfold sql.select_all. rewrite He. reflexivity.
Qed.

Lemma ReadAll_empty_table_witness :
  fst (ReadAll {| v1.ReadAllRequest.Api := "" |} emptyWorld)
  = Return {| v1.ReadAllResponse.Api := "v1"; v1.ReadAllResponse.ToDos := [] |}.
Proof.
  apply (ReadAll_empty_table emptyWorld {| v1.ReadAllRequest.Api := "" |}).
  - exact healthy_sample.
  - reflexivity.
  - reflexivity.
Defined.

(** C4 fails on the code. On a healthy database, a ReadAll with an accepted
    API version against a table that holds a row answers an Internal error:
    [Scan] is handed the values of [td.Id], [td.Title] and [td.Description]
    instead of their addresses and refuses the first of them. *)
Theorem ReadAll_nonempty_table_fails (w : World) (req : v1.ReadAllRequest.t) :
  healthy (driver w) ->
  checkAPI (v1.ReadAllRequest.Api req) = None ->
  sql.rows (table w) <> [] ->
  fst (ReadAll req w)
  = Fail (status.Errorf codes.Internal "failed to retrieve field value from rows, %+v"
            [AError (sql.scanError 0 "ID" "destination not a pointer")]).
Proof.
  intros Hh Ha Hne. healthy_world w Hh. cbn [table] in Hne.
  unfold ReadAll. rewrite Ha. run. unfold sql.select_all.
  destruct (sql.rows _) as [|r rest]; [congruence|].
  reflexivity.
Qed.

Lemma ReadAll_nonempty_table_fails_witness :
  fst (ReadAll {| v1.ReadAllRequest.Api := "v1" |} milkWorld)
  = Fail (status.Errorf codes.Internal "failed to retrieve field value from rows, %+v"
            [AError (sql.scanError 0 "ID" "destination not a pointer")]).
Proof.
  apply (ReadAll_nonempty_table_fails milkWorld {| v1.ReadAllRequest.Api := "v1" |}).
  - exact healthy_sample.
  - reflexivity.
  - discriminate.
Defined.

(** ** Create on a malformed request *)

(** C9 (amended). A Create, with an accepted API version, of a ToDo message
    whose reminder cannot be converted to a time inserts no row, whatever
    the database layer answers. The handler acquires its connection before
    it validates the reminder: when the connection is acquired the error is
    InvalidArgument, carrying the reason of the conversion, and no statement
    is executed; when the pool gives no connection the error is the
    Internal one of [connect]. *)
Theorem Create_invalid_reminder (w : World) (req : v1.CreateRequest.t)
    (todo : v1.ToDo) (err : error) :
  checkAPI (v1.CreateRequest.Api req) = None ->
  v1.CreateRequest.ToDo req = Some todo ->
  snd (ptypes.Timestamp (v1.Reminder todo)) = Some err ->
  table (snd (Create req w)) = table w
  /\ (connErr (driver w) = None ->
        Create req w
        = (Fail (status.Errorf codes.InvalidArgument
                   "reminder field has invalid format, %+v" [AError err]),
           {| driver := driver w; table := table w;
              trace := (trace w ++ [EvConn]) ++ [EvConnClose] |}))
  /\ (forall cerr : error,
        connErr (driver w) = Some cerr ->
        Create req w
        = (Fail (status.Errorf codes.Internal
                   "failed to connect to database, %+v" [AError cerr]),
           {| driver := driver w; table := table w;
              trace := trace w ++ [EvConn] |})).
Proof.
  intros Ha Ht Hv.
  destruct w as [[c e li ra q it fr] t tr].
  unfold Create. rewrite Ha, Ht. run.
  destruct (ptypes.Timestamp (v1.Reminder todo)) as [rem oerr]. cbn [snd] in Hv.
  subst oerr.
  destruct c; cbn.
  - split; [reflexivity|]. split; [discriminate|].
    intros cerr H. injection H as ->. reflexivity.
  - split; [reflexivity|]. split; [reflexivity|].
    intros cerr H. discriminate.
Qed.

Lemma Create_invalid_reminder_witness :
  table (snd (Create
    {| v1.CreateRequest.Api := "v1";
       v1.CreateRequest.ToDo :=
         Some {| v1.Id := 0; v1.Title := "Buy milk"; v1.Description := "2%";
                 v1.Reminder := Some {| tspb.Seconds := 0; tspb.Nanos := -1 |} |} |}
    milkWorld)) = table milkWorld
  /\ fst (Create
    {| v1.CreateRequest.Api := "v1";
       v1.CreateRequest.ToDo :=
         Some {| v1.Id := 0; v1.Title := "Buy milk"; v1.Description := "2%";
                 v1.Reminder := Some {| tspb.Seconds := 0; tspb.Nanos := -1 |} |} |}
    milkWorld)
    = Fail {| status.Code := codes.InvalidArgument;
              status.Message :=
                "reminder field has invalid format, timestamp: nanos:-1 : nanos not in range [0, 1e9)" |}.
Proof.
  pose proof (Create_invalid_reminder milkWorld
    {| v1.CreateRequest.Api := "v1";
       v1.CreateRequest.ToDo :=
         Some {| v1.Id := 0; v1.Title := "Buy milk"; v1.Description := "2%";
                 v1.Reminder := Some {| tspb.Seconds := 0; tspb.Nanos := -1 |} |} |}
    _ _ eq_refl eq_refl eq_refl) as (Ht & Hc & _).
  split; [exact Ht|].
  rewrite (Hc eq_refl). reflexivity.
Defined.

(** C9, as stated, fails: a Create with an accepted API version whose
    reminder has nanoseconds out of range is answered with an Internal
    error, not InvalidArgument, when the pool gives no connection; the
    reminder is never looked at. *)
Lemma Create_invalid_reminder_refused_pool :
  checkAPI "v1" = None
  /\ snd (ptypes.Timestamp (Some {| tspb.Seconds := 0; tspb.Nanos := -1 |}))
     = Some "timestamp: nanos:-1 : nanos not in range [0, 1e9)"
  /\ Create
       {| v1.CreateRequest.Api := "v1";
          v1.CreateRequest.ToDo :=
            Some {| v1.Id := 0; v1.Title := "Buy milk"; v1.Description := "2%";
                    v1.Reminder := Some {| tspb.Seconds := 0; tspb.Nanos := -1 |} |} |}
       refusedWorld
     = (Fail {| status.Code := codes.Internal;
                status.Message :=
                  "failed to connect to database, dial tcp: connection refused" |},
        {| driver := driver refusedWorld; table := table refusedWorld;
           trace := [EvConn] |}).
Proof. repeat split. Qed.

(** C10. With the connection acquired and an accepted API version, a Create
    whose ToDo message is nil panics on reading its Reminder field and
    returns no status, and an Update whose ToDo message is nil reads the
    reminder through the accessor and answers InvalidArgument. Neither
    touches the table. *)
Theorem Create_nil_ToDo_panics (w : World) (creq : v1.CreateRequest.t)
    (ureq : v1.UpdateRequest.t) :
  connErr (driver w) = None ->
  checkAPI (v1.CreateRequest.Api creq) = None ->
  v1.CreateRequest.ToDo creq = None ->
  checkAPI (v1.UpdateRequest.Api ureq) = None ->
  v1.UpdateRequest.ToDo ureq = None ->
  (fst (Create creq w)
   = Panic "runtime error: invalid memory address or nil pointer dereference"
   /\ table (snd (Create creq w)) = table w)
  /\ (fst (Update ureq w)
      = Fail (status.Errorf codes.InvalidArgument
                "reminder filed has invalid format, %+v"
                [AError "timestamp: nil Timestamp"])
      /\ table (snd (Update ureq w)) = table w).
Proof.
  intros Hc Hca Hct Hua Hut.
  destruct w as [[c e li ra q it fr] t tr]. cbn in Hc. subst c.
  unfold Create, Update. rewrite Hca, Hct, Hua, Hut. run.
  repeat split.
Qed.

Lemma Create_nil_ToDo_panics_witness :
  fst (Create {| v1.CreateRequest.Api := "v1"; v1.CreateRequest.ToDo := None |} emptyWorld)
  = Panic "runtime error: invalid memory address or nil pointer dereference"
  /\ fst (Update {| v1.UpdateRequest.Api := "v1"; v1.UpdateRequest.ToDo := None |} emptyWorld)
     = Fail {| status.Code := codes.InvalidArgument;
               status.Message :=
                 "reminder filed has invalid format, timestamp: nil Timestamp" |}.
Proof.
  pose proof (Create_nil_ToDo_panics emptyWorld
    {| v1.CreateRequest.Api := "v1"; v1.CreateRequest.ToDo := None |}
    {| v1.UpdateRequest.Api := "v1"; v1.UpdateRequest.ToDo := None |}
    eq_refl eq_refl eq_refl eq_refl eq_refl) as [[Hp _] [Hu _]].
  split; [exact Hp | exact Hu].
Defined.

(** ** The engine's guarantees under the service *)

(** A request leaves the table as it was or as one statement made it. *)
Lemma serve_table (r : Request) (w : World) :
  table (snd (serve r w)) = table w
  \/ exists s : sql.Stmt,
       table (snd (serve r w)) = snd (sql.run (foundRows (driver w)) s (table w)).
Proof.
  destruct w as [[c e li ra q it fr] t tr].
  destruct r as [r|r|r|r|r]; unfold serve.
  - unfold Create. run.
    destruct (checkAPI _); cbn; [now left|].
    destruct c; cbn; [now left|].
    destruct (v1.CreateRequest.ToDo r) as [todo|]; cbn; [|now left].
    destruct (ptypes.Timestamp _) as [rem [err|]]; cbn; [now left|].
    destruct e; cbn; [now left|].
    right. eexists (sql.INSERT _ _ _).
    destruct li; reflexivity.
  - left. unfold bind.
    pose proof (Read_table {| driver := Build_Driver c e li ra q it fr;
                              table := t; trace := tr |} r) as H.
    destruct (Read r _) as [[x|st|msg] w1]; exact H.
  - unfold Update. run.
    destruct (checkAPI _); cbn; [now left|].
    destruct c; cbn; [now left|].
    destruct (ptypes.Timestamp _) as [rem [err|]]; cbn; [now left|].
    destruct e; cbn; [now left|].
    right. eexists (sql.UPDATE _ _ _ _).
    destruct ra; cbn; [reflexivity|].
    destruct (_ =? 0); reflexivity.
  - unfold Delete. run.
    destruct (checkAPI _); cbn; [now left|].
    destruct c; cbn; [now left|].
    destruct e; cbn; [now left|].
    right. eexists (sql.DELETE _).
    destruct ra; cbn; [reflexivity|].
    destruct (_ =? 0); reflexivity.
  - left. unfold ReadAll. run.
    destruct (checkAPI _); cbn; [reflexivity|].
    destruct c; cbn; [reflexivity|].
    destruct q; cbn; [reflexivity|].
    destruct it as [[n err]|]; cbn;
      destruct (forNext _ _ _ _) as [[[rem l]|st'|msg'] rs]; cbn;
      try reflexivity;
      destruct (sql.Err rs); reflexivity.
Qed.

(** Fresh identifiers and the key are invariants of the service, whatever
    the database answers. *)
Lemma serve_invariant (r : Request) (w : World) :
  fresh_ids (table w) /\ unique_ids (table w) ->
  fresh_ids (table (snd (serve r w))) /\ unique_ids (table (snd (serve r w))).
Proof.
  intros [Hf Hu].
  destruct (serve_table r w) as [-> | [s ->]].
  - now split.
  - split; [now apply run_fresh_ids | now apply run_unique_ids].
Qed.

Lemma emptyWorld_invariant :
  fresh_ids (table emptyWorld) /\ unique_ids (table emptyWorld).
Proof. split; constructor. Qed.

(** * Further properties of the handlers *)

(** ** What a request does to the world *)

(** No handler changes how the database layer behaves. *)
Lemma serve_driver (r : Request) (w : World) : driver (snd (serve r w)) = driver w.
Proof.
  destruct w as [[c e li ra q it fr] t tr].
  destruct r as [r|r|r|r|r]; unfold serve.
  - unfold Create. run.
    destruct (checkAPI _); cbn; [reflexivity|].
    destruct c; cbn; [reflexivity|].
    destruct (v1.CreateRequest.ToDo r) as [todo|]; cbn; [|reflexivity].
    destruct (ptypes.Timestamp _) as [rem [err|]]; cbn; [reflexivity|].
    destruct e; cbn; [reflexivity|].
    destruct li; reflexivity.
  - unfold Read. run.
    destruct (checkAPI _); cbn; [reflexivity|].
    destruct c; cbn; [reflexivity|].
    destruct q; cbn; [reflexivity|].
    destruct it as [[n err]|]; cbn;
      [destruct (firstn n _) as [|r0 [|r1 l]]
      |destruct (sql.select_by_id _ _) as [|r0 [|r1 l]]]; cbn;
      try (destruct (ptypes.TimestampProto _) as [ts [err'|]]; cbn);
      reflexivity.
  - unfold Update. run.
    destruct (checkAPI _); cbn; [reflexivity|].
    destruct c; cbn; [reflexivity|].
    destruct (ptypes.Timestamp _) as [rem [err|]]; cbn; [reflexivity|].
    destruct e; cbn; [reflexivity|].
    destruct ra; cbn; [reflexivity|].
    destruct (_ =? 0); reflexivity.
  - unfold Delete. run.
    destruct (checkAPI _); cbn; [reflexivity|].
    destruct c; cbn; [reflexivity|].
    destruct e; cbn; [reflexivity|].
    destruct ra; cbn; [reflexivity|].
    destruct (_ =? 0); reflexivity.
  - unfold ReadAll. run.
    destruct (checkAPI _); cbn; [reflexivity|].
    destruct c; cbn; [reflexivity|].
    destruct q; cbn; [reflexivity|].
    destruct it as [[n err]|]; cbn;
      destruct (forNext _ _ _ _) as [[[rem l]|st'|msg'] rs]; cbn;
      try reflexivity;
      destruct (sql.Err rs); reflexivity.
Qed.

Lemma ReadAll_table (w : World) (req : v1.ReadAllRequest.t) :
  table (snd (ReadAll req w)) = table w.
Proof.
  destruct w as [[c e li ra q it fr] t tr].
  unfold ReadAll. run.
  destruct (checkAPI _); cbn; [reflexivity|].
  destruct c; cbn; [reflexivity|].
  destruct q; cbn; [reflexivity|].
  destruct it as [[n err]|]; cbn;
    destruct (forNext _ _ _ _) as [[[rem l]|st'|msg'] rs]; cbn;
    try reflexivity;
    destruct (sql.Err rs); reflexivity.
Qed.

(** X14. Read and ReadAll never change the table, whatever the request
    and whatever the database layer answers. *)
Theorem reads_leave_table (w : World) :
  (forall req : v1.ReadRequest.t, table (snd (Read req w)) = table w)
  /\ (forall req : v1.ReadAllRequest.t, table (snd (ReadAll req w)) = table w).
Proof.
  split; intros req; [apply Read_table | apply ReadAll_table].
Qed.

(** The statement an operation executes, the query it issues with the
    handle it issues it on ([Read] on the pool [s.db], [ReadAll] on its
    connection [c]), and the error of the conversion of the reminder it
    receives. *)
Definition statement (r : Request) : option sql.Stmt :=
  match r with
  | CreateReq req =>
      Some (sql.INSERT (v1.GetTitle (v1.CreateRequest.ToDo req))
              (v1.GetDescription (v1.CreateRequest.ToDo req))
              (fst (ptypes.Timestamp (v1.GetReminder (v1.CreateRequest.ToDo req)))))
  | UpdateReq req =>
      Some (sql.UPDATE (v1.GetTitle (v1.UpdateRequest.ToDo req))
              (v1.GetDescription (v1.UpdateRequest.ToDo req))
              (fst (ptypes.Timestamp (v1.GetReminder (v1.UpdateRequest.ToDo req))))
              (v1.GetId (v1.UpdateRequest.ToDo req)))
  | DeleteReq req => Some (sql.DELETE (v1.DeleteRequest.Id req))
  | ReadReq _ | ReadAllReq _ => None
  end.

Definition query (r : Request) : option (Handle * sql.Query) :=
  match r with
  | ReadReq req => Some (Pool, sql.SELECT_WHERE_ID (v1.ReadRequest.Id req))
  | ReadAllReq _ => Some (Connection, sql.SELECT_ALL)
  | CreateReq _ | UpdateReq _ | DeleteReq _ => None
  end.

Definition reminder_error (r : Request) : option error :=
  match r with
  | CreateReq req =>
      snd (ptypes.Timestamp (v1.GetReminder (v1.CreateRequest.ToDo req)))
  | UpdateReq req =>
      snd (ptypes.Timestamp (v1.GetReminder (v1.UpdateRequest.ToDo req)))
  | ReadReq _ | DeleteReq _ | ReadAllReq _ => None
  end.

(** The calls a request [r] makes on a database layer that behaves as [d]:
    none when the version is rejected; the call for a connection alone when
    the pool refuses it; otherwise the connection, closed again as the last
    call, around nothing (the reminder is rejected, or the ToDo message is
    missing), around the one statement of the operation, or around its one
    query, whose cursor is closed before the connection. *)
Inductive Session (d : Driver) (r : Request) : list Event -> Prop :=
| NoAccess :
    checkAPI (request_api r) <> None ->
    Session d r []
| ConnRefused :
    checkAPI (request_api r) = None -> connErr d <> None ->
    Session d r [EvConn]
| ConnOnly :
    checkAPI (request_api r) = None -> connErr d = None ->
    reminder_error r <> None ->
    Session d r [EvConn; EvConnClose]
| OneExec (s : sql.Stmt) :
    checkAPI (request_api r) = None -> connErr d = None ->
    reminder_error r = None -> statement r = Some s ->
    Session d r [EvConn; EvExec s; EvConnClose]
| QueryRefused (h : Handle) (q : sql.Query) :
    checkAPI (request_api r) = None -> connErr d = None ->
    queryErr d <> None -> query r = Some (h, q) ->
    Session d r [EvConn; EvQuery h q; EvConnClose]
| OneQuery (h : Handle) (q : sql.Query) :
    checkAPI (request_api r) = None -> connErr d = None ->
    queryErr d = None -> query r = Some (h, q) ->
    Session d r [EvConn; EvQuery h q; EvRowsClose; EvConnClose].

Lemma session_after (d : Driver) (r : Request) (tr tr' evs : list Event) :
  tr' = (tr ++ evs)%list -> Session d r evs ->
  exists evs', tr' = (tr ++ evs')%list /\ Session d r evs'.
Proof. intros -> H. eauto. Qed.

(** A session that acquired its connection opens with it, closes it as its
    last call, and neither acquires nor closes a connection in between. *)
Lemma Session_released (d : Driver) (r : Request) (evs : list Event) :
  Session d r evs ->
  checkAPI (request_api r) = None -> connErr d = None ->
  exists mid : list Event,
    evs = (EvConn :: mid ++ [EvConnClose])%list
    /\ (List.length mid <= 2)%nat
    /\ Forall (fun e => e <> EvConn /\ e <> EvConnClose) mid.
Proof.
  intros H Ha Hc. destruct H as [Hn | _ Hn | | s | h q | h q]; try congruence.
  - exists []. repeat constructor.
  - exists [EvExec s]. repeat constructor; discriminate.
  - exists [EvQuery h q]. repeat constructor; discriminate.
  - exists [EvQuery h q; EvRowsClose]. repeat constructor; discriminate.
Qed.

Lemma reminder_error_nil : snd (ptypes.Timestamp None) <> None.
Proof. discriminate. Qed.

(** X2. Whatever the request and whatever the database layer answers, the
    calls of a handler are a [Session]: no call when the version is
    rejected; one call for a connection, and with the connection acquired
    at most one statement or query, the one of the operation (Read on the
    pool, ReadAll on its connection), with the cursor and then the
    connection closed on every way out, a panic included. A connection that
    was acquired is always closed, as the last call. *)
Theorem serve_session (r : Request) (w : World) :
  exists evs : list Event,
    trace (snd (serve r w)) = (trace w ++ evs)%list
    /\ Session (driver w) r evs
    /\ (checkAPI (request_api r) = None -> connErr (driver w) = None ->
        exists mid : list Event,
          evs = (EvConn :: mid ++ [EvConnClose])%list
          /\ (List.length mid <= 2)%nat
          /\ Forall (fun e => e <> EvConn /\ e <> EvConnClose) mid).
Proof.
  enough (H : exists evs : list Event,
            trace (snd (serve r w)) = (trace w ++ evs)%list
            /\ Session (driver w) r evs).
  { destruct H as (evs & Ht & Hs). exists evs. repeat split; auto.
    now apply Session_released. }
  destruct w as [[c e li ra q it fr] t tr]. cbn [driver trace].
  assert (Hnil : forall l : list Event, l = (l ++ [])%list)
    by (intros; now rewrite app_nil_r).
  destruct r as [r|r|r|r|r]; unfold serve.
  - unfold Create. run.
    destruct (checkAPI _) eqn:Ha; cbn;
      [eexists; split; [apply Hnil | apply NoAccess; cbn; congruence]|].
    destruct c; cbn;
      [eexists; split; [reflexivity | apply ConnRefused; cbn; congruence]|].
    destruct (v1.CreateRequest.ToDo r) as [todo|] eqn:Ht; cbn.
    + destruct (ptypes.Timestamp (v1.Reminder todo)) as [rem [err|]] eqn:E; cbn.
      * eapply session_after; [now rewrite <- app_assoc|].
        apply ConnOnly; cbn; auto. rewrite Ht. cbn. rewrite E. discriminate.
      * assert (Hs : Session (Build_Driver None e li ra q it fr) (CreateReq r)
                       [EvConn;
                        EvExec (sql.INSERT (v1.Title todo) (v1.Description todo) rem);
                        EvConnClose]).
        { apply OneExec; cbn; auto; rewrite Ht; cbn; now rewrite E. }
        destruct e; cbn;
          [eapply session_after; [now rewrite <- !app_assoc | exact Hs]|].
        destruct li; cbn;
          (eapply session_after; [now rewrite <- !app_assoc | exact Hs]).
    + eapply session_after; [now rewrite <- app_assoc|].
      apply ConnOnly; cbn; auto. rewrite Ht. exact reminder_error_nil.
  - unfold Read. run.
    destruct (checkAPI _) eqn:Ha; cbn;
      [eexists; split; [apply Hnil | apply NoAccess; cbn; congruence]|].
    destruct c; cbn;
      [eexists; split; [reflexivity | apply ConnRefused; cbn; congruence]|].
    destruct q; cbn;
      [eapply session_after;
         [now rewrite <- !app_assoc | apply QueryRefused; cbn; auto; congruence]|].
    destruct it as [[n err]|]; cbn;
      [destruct (firstn n _) as [|r0 [|r1 l]]
      |destruct (sql.select_by_id _ _) as [|r0 [|r1 l]]]; cbn;
      try (destruct (ptypes.TimestampProto _) as [ts [err'|]]; cbn);
      (eapply session_after;
         [now rewrite <- !app_assoc | apply OneQuery; cbn; auto]).
  - unfold Update. run.
    destruct (checkAPI _) eqn:Ha; cbn;
      [eexists; split; [apply Hnil | apply NoAccess; cbn; congruence]|].
    destruct c; cbn;
      [eexists; split; [reflexivity | apply ConnRefused; cbn; congruence]|].
    destruct (ptypes.Timestamp _) as [rem [err|]] eqn:E; cbn.
    + eapply session_after; [now rewrite <- app_assoc|].
      apply ConnOnly; cbn; auto. rewrite E. discriminate.
    + assert (Hs : Session (Build_Driver None e li ra q it fr) (UpdateReq r)
                     [EvConn;
                      EvExec (sql.UPDATE (v1.GetTitle (v1.UpdateRequest.ToDo r))
                                (v1.GetDescription (v1.UpdateRequest.ToDo r)) rem
                                (v1.GetId (v1.UpdateRequest.ToDo r)));
                      EvConnClose]).
      { apply OneExec; cbn; auto; now rewrite E. }
      destruct e; cbn;
        [eapply session_after; [now rewrite <- !app_assoc | exact Hs]|].
      destruct ra; cbn;
        [eapply session_after; [now rewrite <- !app_assoc | exact Hs]|].
      destruct (_ =? 0); cbn;
        (eapply session_after; [now rewrite <- !app_assoc | exact Hs]).
  - unfold Delete. run.
    destruct (checkAPI _) eqn:Ha; cbn;
      [eexists; split; [apply Hnil | apply NoAccess; cbn; congruence]|].
    destruct c; cbn;
      [eexists; split; [reflexivity | apply ConnRefused; cbn; congruence]|].
    assert (Hs : Session (Build_Driver None e li ra q it fr) (DeleteReq r)
                   [EvConn; EvExec (sql.DELETE (v1.DeleteRequest.Id r)); EvConnClose]).
    { apply OneExec; cbn; auto. }
    destruct e; cbn;
      [eapply session_after; [now rewrite <- !app_assoc | exact Hs]|].
    destruct ra; cbn;
      [eapply session_after; [now rewrite <- !app_assoc | exact Hs]|].
    destruct (_ =? 0); cbn;
      (eapply session_after; [now rewrite <- !app_assoc | exact Hs]).
  - unfold ReadAll. run.
    destruct (checkAPI _) eqn:Ha; cbn;
      [eexists; split; [apply Hnil | apply NoAccess; cbn; congruence]|].
    destruct c; cbn;
      [eexists; split; [reflexivity | apply ConnRefused; cbn; congruence]|].
    destruct q; cbn;
      [eapply session_after;
         [now rewrite <- !app_assoc | apply QueryRefused; cbn; auto; congruence]|].
    assert (Hs : Session (Build_Driver None e li ra None it fr) (ReadAllReq r)
                   [EvConn; EvQuery Connection sql.SELECT_ALL; EvRowsClose;
                    EvConnClose]).
    { apply OneQuery; cbn; auto. }
    destruct it as [[n err]|]; cbn;
      destruct (forNext _ _ _ _) as [[[rem l]|st'|msg'] rs]; cbn;
      try (eapply session_after; [now rewrite <- !app_assoc | exact Hs]);
      destruct (sql.Err rs); cbn;
      (eapply session_after; [now rewrite <- !app_assoc | exact Hs]).
Qed.

Lemma serve_session_witness :
  exists evs : list Event,
    trace (snd (serve (ReadReq {| v1.ReadRequest.Api := "v1"; v1.ReadRequest.Id := 1 |})
                      milkWorld))
    = (trace milkWorld ++ evs)%list
    /\ Session (driver milkWorld)
         (ReadReq {| v1.ReadRequest.Api := "v1"; v1.ReadRequest.Id := 1 |}) evs
    /\ exists mid : list Event,
         evs = (EvConn :: mid ++ [EvConnClose])%list
         /\ (List.length mid <= 2)%nat
         /\ Forall (fun e => e <> EvConn /\ e <> EvConnClose) mid.
Proof.
  destruct (serve_session
              (ReadReq {| v1.ReadRequest.Api := "v1"; v1.ReadRequest.Id := 1 |})
              milkWorld) as (evs & Ht & Hs & Hc).
  exists evs. split; [exact Ht|]. split; [exact Hs|].
  exact (Hc eq_refl eq_refl).
Defined.

(** X1. For each of the five operations, when the version is accepted and
    the pool gives no connection, the answer is an Internal error carrying
    the pool's error; the table is untouched, nothing is executed and
    nothing is closed. *)
Theorem connect_failure (r : Request) (w : World) (err : error) :
  checkAPI (request_api r) = None ->
  connErr (driver w) = Some err ->
  serve r w
  = (Fail (status.Errorf codes.Internal "failed to connect to database, %+v"
             [AError err]),
     {| driver := driver w; table := table w; trace := trace w ++ [EvConn] |}).
Proof.
  intros Ha Hc. destruct w as [[c e li ra q it fr] t tr]. cbn in Hc. subst c.
  destruct r as [r|r|r|r|r]; cbn [request_api] in Ha;
    unfold serve, Create, Read, Update, Delete, ReadAll;
    rewrite Ha; run; reflexivity.
Qed.

Lemma connect_failure_witness :
  serve (ReadAllReq {| v1.ReadAllRequest.Api := "" |}) refusedWorld
  = (Fail {| status.Code := codes.Internal;
             status.Message :=
               "failed to connect to database, dial tcp: connection refused" |},
     {| driver := driver refusedWorld; table := table milkWorld;
        trace := [EvConn] |}).
Proof.
  exact (connect_failure (ReadAllReq {| v1.ReadAllRequest.Api := "" |}) refusedWorld
           "dial tcp: connection refused" eq_refl eq_refl).
Defined.

(** ** What a write does to the rows of other identifiers *)

(** The answer of [Read] is decided by the behaviour of the database layer
    and the rows its identifier selects. *)
Lemma Read_selection (w w' : World) (req : v1.ReadRequest.t) :
  driver w = driver w' ->
  sql.select_by_id (v1.ReadRequest.Id req) (table w)
  = sql.select_by_id (v1.ReadRequest.Id req) (table w') ->
  fst (Read req w) = fst (Read req w').
Proof.
  destruct w as [[c e li ra q it fr] t tr]. destruct w' as [d' t' tr'].
  cbn [driver table]. intros <- Hs.
  unfold Read. run.
  destruct (checkAPI _); cbn; [reflexivity|].
  destruct c; cbn; [reflexivity|].
  destruct q; cbn; [reflexivity|].
  rewrite <- Hs.
  destruct it as [[n err]|]; cbn;
    [destruct (firstn n _) as [|r0 [|r1 l]]
    |destruct (sql.select_by_id _ _) as [|r0 [|r1 l]]]; cbn;
    try (destruct (ptypes.TimestampProto _) as [ts [err'|]]; cbn);
    reflexivity.
Qed.

Lemma Create_table (w : World) (req : v1.CreateRequest.t) :
  table (snd (Create req w)) = table w
  \/ exists title description reminder,
       table (snd (Create req w))
       = snd (sql.run (foundRows (driver w))
                (sql.INSERT title description reminder) (table w)).
Proof.
  destruct w as [[c e li ra q it fr] t tr].
  unfold Create. run.
  destruct (checkAPI _); cbn; [now left|].
  destruct c; cbn; [now left|].
  destruct (v1.CreateRequest.ToDo req) as [todo|]; cbn; [|now left].
  destruct (ptypes.Timestamp _) as [rem [err|]]; cbn; [now left|].
  destruct e; cbn; [now left|].
  right. do 3 eexists.
  destruct li; reflexivity.
Qed.

Lemma Update_table (w : World) (req : v1.UpdateRequest.t) :
  table (snd (Update req w)) = table w
  \/ exists title description reminder,
       table (snd (Update req w))
       = snd (sql.run (foundRows (driver w))
                (sql.UPDATE title description reminder
                   (v1.GetId (v1.UpdateRequest.ToDo req))) (table w)).
Proof.
  destruct w as [[c e li ra q it fr] t tr].
  unfold Update. run.
  destruct (checkAPI _); cbn; [now left|].
  destruct c; cbn; [now left|].
  destruct (ptypes.Timestamp _) as [rem [err|]]; cbn; [now left|].
  destruct e; cbn; [now left|].
  right. do 3 eexists.
  destruct ra; cbn; [reflexivity|].
  destruct (_ =? 0); reflexivity.
Qed.

Lemma Delete_table (w : World) (req : v1.DeleteRequest.t) :
  table (snd (Delete req w)) = table w
  \/ table (snd (Delete req w))
     = snd (sql.run (foundRows (driver w))
              (sql.DELETE (v1.DeleteRequest.Id req)) (table w)).
Proof.
  destruct w as [[c e li ra q it fr] t tr].
  unfold Delete. run.
  destruct (checkAPI _); cbn; [now left|].
  destruct c; cbn; [now left|].
  destruct e; cbn; [now left|].
  right.
  destruct ra; cbn; [reflexivity|].
  destruct (_ =? 0); reflexivity.
Qed.

Lemma hasID_both (id id' : Z) (r : sql.Row) :
  id' <> id -> sql.hasID id' r = true -> sql.hasID id r = false.
Proof.
  intros Hne H. apply hasID_true in H. apply hasID_false. congruence.
Qed.

Lemma select_other_after_update (id id' : Z) (f : sql.Row -> sql.Row) (l : list sql.Row) :
  id' <> id ->
  (forall r, sql.ID (f r) = sql.ID r) ->
  filter (sql.hasID id') (map (fun r => if sql.hasID id r then f r else r) l)
  = filter (sql.hasID id') l.
Proof.
  intros Hne Hf. induction l as [|r l IH]; cbn; [reflexivity|].
  destruct (sql.hasID id r) eqn:E.
  - assert (H1 : sql.hasID id' (f r) = false).
    { apply hasID_false. rewrite Hf. apply hasID_true in E. congruence. }
    assert (H2 : sql.hasID id' r = false).
    { apply hasID_false. apply hasID_true in E. congruence. }
    now rewrite H1, H2.
  - now rewrite IH.
Qed.

Lemma select_other_after_delete (id id' : Z) (l : list sql.Row) :
  id' <> id ->
  filter (sql.hasID id') (filter (fun r => negb (sql.hasID id r)) l)
  = filter (sql.hasID id') l.
Proof.
  intros Hne. induction l as [|r l IH]; cbn; [reflexivity|].
  destruct (sql.hasID id r) eqn:E; cbn.
  - assert (H2 : sql.hasID id' r = false).
    { apply hasID_false. apply hasID_true in E. congruence. }
    now rewrite H2.
  - now rewrite IH.
Qed.

(** X4. An Update never changes what Read answers for another identifier:
    for every request, every table and every behaviour of the database
    layer, a Read of an identifier different from the updated one answers
    after the Update what it answered before. *)
Theorem Update_leaves_other_ids (w : World) (ureq : v1.UpdateRequest.t)
    (rreq : v1.ReadRequest.t) :
  v1.ReadRequest.Id rreq <> v1.GetId (v1.UpdateRequest.ToDo ureq) ->
  fst (Read rreq (snd (Update ureq w))) = fst (Read rreq w).
Proof.
  intros Hne. apply Read_selection.
  - pose proof (serve_driver (UpdateReq ureq) w) as H.
    unfold serve, bind in H.
    destruct (Update ureq w) as [[x|st|msg] w1]; exact H.
  - destruct (Update_table w ureq) as [-> | (ti & de & re & ->)]; [reflexivity|].
    cbn [sql.run snd]. unfold sql.select_by_id. cbn [sql.rows].
    now apply select_other_after_update.
Qed.

Lemma Update_leaves_other_ids_witness :
  fst (Read {| v1.ReadRequest.Api := "v1"; v1.ReadRequest.Id := 1 |}
         (snd (Update {| v1.UpdateRequest.Api := "v1";
                         v1.UpdateRequest.ToDo := Some milk |} milkWorld)))
  = fst (Read {| v1.ReadRequest.Api := "v1"; v1.ReadRequest.Id := 1 |} milkWorld).
Proof.
  apply (Update_leaves_other_ids milkWorld
           {| v1.UpdateRequest.Api := "v1"; v1.UpdateRequest.ToDo := Some milk |}
           {| v1.ReadRequest.Api := "v1"; v1.ReadRequest.Id := 1 |}).
  discriminate.
Defined.

(** X5. A Delete never changes what Read answers for another identifier,
    whatever the database layer answers. *)
Theorem Delete_leaves_other_ids (w : World) (dreq : v1.DeleteRequest.t)
    (rreq : v1.ReadRequest.t) :
  v1.ReadRequest.Id rreq <> v1.DeleteRequest.Id dreq ->
  fst (Read rreq (snd (Delete dreq w))) = fst (Read rreq w).
Proof.
  intros Hne. apply Read_selection.
  - pose proof (serve_driver (DeleteReq dreq) w) as H.
    unfold serve, bind in H.
    destruct (Delete dreq w) as [[x|st|msg] w1]; exact H.
  - destruct (Delete_table w dreq) as [-> | ->]; [reflexivity|].
    cbn [sql.run snd]. unfold sql.select_by_id. cbn [sql.rows].
    now apply select_other_after_delete.
Qed.

Lemma Delete_leaves_other_ids_witness :
  fst (Read {| v1.ReadRequest.Api := "v1"; v1.ReadRequest.Id := 1 |}
         (snd (Delete {| v1.DeleteRequest.Api := "v1"; v1.DeleteRequest.Id := 7 |}
                 milkWorld)))
  = fst (Read {| v1.ReadRequest.Api := "v1"; v1.ReadRequest.Id := 1 |} milkWorld).
Proof.
  apply (Delete_leaves_other_ids milkWorld
           {| v1.DeleteRequest.Api := "v1"; v1.DeleteRequest.Id := 7 |}
           {| v1.ReadRequest.Api := "v1"; v1.ReadRequest.Id := 1 |}).
  discriminate.
Defined.

(** X6. A Create never changes what Read answers for an identifier other
    than the one the engine assigns next, whatever the database layer
    answers: the rows already stored are read as before. *)
Theorem Create_leaves_other_ids (w : World) (creq : v1.CreateRequest.t)
    (rreq : v1.ReadRequest.t) :
  v1.ReadRequest.Id rreq <> sql.AUTO_INCREMENT (table w) ->
  fst (Read rreq (snd (Create creq w))) = fst (Read rreq w).
Proof.
  intros Hne. apply Read_selection.
  - pose proof (serve_driver (CreateReq creq) w) as H.
    unfold serve, bind in H.
    destruct (Create creq w) as [[x|st|msg] w1]; exact H.
  - destruct (Create_table w creq) as [-> | (ti & de & re & ->)]; [reflexivity|].
    cbn [sql.run snd]. unfold sql.select_by_id. cbn [sql.rows].
    rewrite filter_app. cbn [filter].
    replace (sql.hasID (v1.ReadRequest.Id rreq) _) with false.
    + now rewrite app_nil_r.
    + symmetry. apply hasID_false. cbn [sql.ID]. congruence.
Qed.

Lemma Create_leaves_other_ids_witness :
  fst (Read {| v1.ReadRequest.Api := "v1"; v1.ReadRequest.Id := 1 |}
         (snd (Create {| v1.CreateRequest.Api := "v1";
                         v1.CreateRequest.ToDo := Some milk |} milkWorld)))
  = fst (Read {| v1.ReadRequest.Api := "v1"; v1.ReadRequest.Id := 1 |} milkWorld).
Proof.
  apply (Create_leaves_other_ids milkWorld
           {| v1.CreateRequest.Api := "v1"; v1.CreateRequest.ToDo := Some milk |}
           {| v1.ReadRequest.Api := "v1"; v1.ReadRequest.Id := 1 |}).
  discriminate.
Defined.

(** ** Update, Delete and Create followed by Read *)

(** [Update] on a healthy database. *)
Lemma Update_healthy (w : World) (req : v1.UpdateRequest.t) (todo : v1.ToDo)
    (ts : tspb.Timestamp) :
  healthy (driver w) ->
  checkAPI (v1.UpdateRequest.Api req) = None ->
  v1.UpdateRequest.ToDo req = Some todo ->
  v1.Reminder todo = Some ts ->
  ptypes.validateTimestamp (Some ts) = None ->
  let rem := fst (ptypes.Timestamp (Some ts)) in
  let stmt := sql.UPDATE (v1.Title todo) (v1.Description todo) rem (v1.Id todo) in
  let n := Z.of_nat (List.length
             (sql.affected_by_update (foundRows (driver w)) (v1.Title todo)
                (v1.Description todo) rem (v1.Id todo) (table w))) in
  Update req w
  = (if n =? 0
     then Fail (status.Errorf codes.NotFound "ToDo with ID='%d' is not found"
                  [AInt64 (v1.Id todo)])
     else Return {| v1.UpdateResponse.Api := apiVersion;
                    v1.UpdateResponse.Updated := n |},
     {| driver := driver w;
        table := snd (sql.run (foundRows (driver w)) stmt (table w));
        trace := ((trace w ++ [EvConn]) ++ [EvExec stmt]) ++ [EvConnClose] |}).
Proof.
  intros Hh Ha Ht Hr Hv. healthy_world w Hh.
  unfold Update. rewrite Ha, Ht. run. rewrite Hr.
  rewrite (Timestamp_valid ts Hv). cbn.
  destruct (Z.of_nat _ =? 0); reflexivity.
Qed.

Lemma select_after_update (id : Z) (f : sql.Row -> sql.Row) (l : list sql.Row) :
  (forall r, sql.ID (f r) = sql.ID r) ->
  filter (sql.hasID id) (map (fun r => if sql.hasID id r then f r else r) l)
  = map f (filter (sql.hasID id) l).
Proof.
  intros Hf. induction l as [|r l IH]; cbn; [reflexivity|].
  destruct (sql.hasID id r) eqn:E.
  - assert (H1 : sql.hasID id (f r) = true).
    { apply hasID_true. rewrite Hf. now apply hasID_true. }
    rewrite H1. cbn. now rewrite IH.
  - now rewrite E, IH.
Qed.

(** X3. On a healthy database, an Update with a valid reminder of the one
    row its identifier selects, on a connection that counts the rows it
    found or with values that differ from the stored ones, answers a count
    of 1; a Read of that identifier then yields the identifier with the
    title, the description and the reminder of the Update. *)
Theorem Update_then_Read (w : World) (api api' : string) (todo : v1.ToDo)
    (ts : tspb.Timestamp) (r : sql.Row) :
  healthy (driver w) ->
  checkAPI api = None ->
  checkAPI api' = None ->
  v1.Reminder todo = Some ts ->
  snd (ptypes.Timestamp (Some ts)) = None ->
  sql.select_by_id (v1.Id todo) (table w) = [r] ->
  foundRows (driver w)
  || negb (sql.unchanged (v1.Title todo) (v1.Description todo)
             (fst (ptypes.Timestamp (Some ts))) r) = true ->
  exists w1 : World,
    Update {| v1.UpdateRequest.Api := api; v1.UpdateRequest.ToDo := Some todo |} w
    = (Return {| v1.UpdateResponse.Api := apiVersion;
                 v1.UpdateResponse.Updated := 1 |}, w1)
    /\ fst (Read {| v1.ReadRequest.Api := api'; v1.ReadRequest.Id := v1.Id todo |} w1)
       = Return {| v1.ReadResponse.Api := apiVersion;
                   v1.ReadResponse.ToDo :=
                     Some {| v1.Id := v1.Id todo; v1.Title := v1.Title todo;
                             v1.Description := v1.Description todo;
                             v1.Reminder := Some ts |} |}.
Proof.
  intros Hh Ha Ha' Hr Hv Hs Hcount.
  change (ptypes.validateTimestamp (Some ts) = None) in Hv.
  assert (Hid : sql.ID r = v1.Id todo).
  { apply hasID_true.
    assert (Hin : In r (sql.select_by_id (v1.Id todo) (table w)))
      by (rewrite Hs; now left).
    unfold sql.select_by_id in Hin. apply filter_In in Hin. tauto. }
  eexists. split.
  - rewrite (Update_healthy w _ todo ts); auto. cbv zeta.
    replace (sql.affected_by_update _ _ _ _ _ _) with [r]; [reflexivity|].
    unfold sql.affected_by_update. unfold sql.select_by_id in Hs.
    clear - Hs Hcount.
    revert Hs. induction (sql.rows (table w)) as [|r0 l IH]; cbn; [discriminate|].
    destruct (sql.hasID (v1.Id todo) r0) eqn:E; cbn [andb].
    + intros H. injection H as -> Hl. rewrite Hcount. f_equal.
      symmetry. apply filter_none. apply filter_nil_none in Hl.
      eapply Forall_impl; [|exact Hl]. cbv beta. intros a Ha. now rewrite Ha.
    + intros H. now apply IH.
  - set (row := sql.assign (v1.Title todo) (v1.Description todo)
                  (fst (ptypes.Timestamp (Some ts))) r).
    rewrite (Read_healthy_one _ _ row); auto.
    + unfold row. cbn [sql.assign sql.Reminder sql.ID sql.Title sql.Description].
      rewrite (TimestampProto_Timestamp ts Hv). now rewrite Hid.
    + cbn [table sql.run snd v1.ReadRequest.Id].
      unfold sql.select_by_id. cbn [sql.rows].
      rewrite select_after_update by reflexivity.
      unfold sql.select_by_id in Hs. now rewrite Hs.
Qed.

Lemma Update_then_Read_witness :
  exists w1 : World,
    Update {| v1.UpdateRequest.Api := "v1";
              v1.UpdateRequest.ToDo :=
                Some {| v1.Id := 1; v1.Title := "Buy oat milk";
                        v1.Description := "2%";
                        v1.Reminder := Some sampleReminder |} |} milkWorld
    = (Return {| v1.UpdateResponse.Api := apiVersion;
                 v1.UpdateResponse.Updated := 1 |}, w1)
    /\ fst (Read {| v1.ReadRequest.Api := ""; v1.ReadRequest.Id := 1 |} w1)
       = Return {| v1.ReadResponse.Api := apiVersion;
                   v1.ReadResponse.ToDo :=
                     Some {| v1.Id := 1; v1.Title := "Buy oat milk";
                             v1.Description := "2%";
                             v1.Reminder := Some sampleReminder |} |}.
Proof.
  apply (Update_then_Read milkWorld "v1" ""
           {| v1.Id := 1; v1.Title := "Buy oat milk"; v1.Description := "2%";
              v1.Reminder := Some sampleReminder |} sampleReminder milkRow).
  - exact healthy_sample.
  - reflexivity.
  - reflexivity.
  - reflexivity.
  - reflexivity.
  - reflexivity.
  - reflexivity.
Defined.

(** X7. An Update, with an accepted API version, whose reminder cannot be
    converted to a time (a missing ToDo message and a missing reminder
    included) changes no row: the table is unchanged and no statement is
    executed; once the connection is acquired the error is
    InvalidArgument. *)
Theorem Update_invalid_reminder (w : World) (req : v1.UpdateRequest.t) (err : error) :
  checkAPI (v1.UpdateRequest.Api req) = None ->
  snd (ptypes.Timestamp (v1.GetReminder (v1.UpdateRequest.ToDo req))) = Some err ->
  table (snd (Update req w)) = table w
  /\ (connErr (driver w) = None ->
        Update req w
        = (Fail (status.Errorf codes.InvalidArgument
                   "reminder filed has invalid format, %+v" [AError err]),
           {| driver := driver w; table := table w;
              trace := (trace w ++ [EvConn]) ++ [EvConnClose] |})).
Proof.
  intros Ha Hv.
  destruct w as [[c e li ra q it fr] t tr].
  unfold Update. rewrite Ha. run.
  destruct (ptypes.Timestamp _) as [rem oerr]. cbn [snd] in Hv. subst oerr.
  destruct c; cbn.
  - split; [reflexivity | discriminate].
  - split; reflexivity.
Qed.

Lemma Update_invalid_reminder_witness :
  fst (Update
    {| v1.UpdateRequest.Api := "v1";
       v1.UpdateRequest.ToDo :=
         Some {| v1.Id := 1; v1.Title := "Buy oat milk"; v1.Description := "2%";
                 v1.Reminder := Some {| tspb.Seconds := 253402300800;
                                        tspb.Nanos := 0 |} |} |}
    milkWorld)
  = Fail {| status.Code := codes.InvalidArgument;
            status.Message :=
              "reminder filed has invalid format, timestamp: seconds:253402300800  after 10000-01-01" |}
  /\ table (snd (Update
    {| v1.UpdateRequest.Api := "v1";
       v1.UpdateRequest.ToDo :=
         Some {| v1.Id := 1; v1.Title := "Buy oat milk"; v1.Description := "2%";
                 v1.Reminder := Some {| tspb.Seconds := 253402300800;
                                        tspb.Nanos := 0 |} |} |}
    milkWorld)) = table milkWorld.
Proof.
  pose proof (Update_invalid_reminder milkWorld
    {| v1.UpdateRequest.Api := "v1";
       v1.UpdateRequest.ToDo :=
         Some {| v1.Id := 1; v1.Title := "Buy oat milk"; v1.Description := "2%";
                 v1.Reminder := Some {| tspb.Seconds := 253402300800;
                                        tspb.Nanos := 0 |} |} |}
    _ eq_refl eq_refl) as [Ht Hc].
  split; [|exact Ht].
  rewrite (Hc eq_refl). reflexivity.
Defined.

(** X8. On a healthy database, a Delete of an identifier that selects at
    least one row answers the number of rows it selects (more than 1 when
    the identifier is no key), and a Read of that identifier then answers
    NotFound. *)
Theorem Delete_then_Read (w : World) (dreq : v1.DeleteRequest.t) (api' : string) :
  healthy (driver w) ->
  checkAPI (v1.DeleteRequest.Api dreq) = None ->
  checkAPI api' = None ->
  sql.select_by_id (v1.DeleteRequest.Id dreq) (table w) <> [] ->
  exists w1 : World,
    Delete dreq w
    = (Return {| v1.DeleteResponse.Api := apiVersion;
                 v1.DeleteResponse.Deleted :=
                   Z.of_nat (List.length
                     (sql.select_by_id (v1.DeleteRequest.Id dreq) (table w))) |}, w1)
    /\ fst (Read {| v1.ReadRequest.Api := api';
                    v1.ReadRequest.Id := v1.DeleteRequest.Id dreq |} w1)
       = Fail (status.Errorf codes.NotFound "ToDo with ID='%d' is not found"
                 [AInt64 (v1.DeleteRequest.Id dreq)]).
Proof.
  intros Hh Ha Ha' Hne.
  eexists. split.
  - rewrite (Delete_healthy w dreq Hh Ha). cbv zeta.
    destruct (sql.select_by_id _ _) as [|r l]; [congruence|].
    reflexivity.
  - apply Read_healthy_none; auto.
    cbn [table sql.run snd v1.ReadRequest.Id].
    unfold sql.select_by_id. cbn [sql.rows]. apply select_after_delete.
Qed.

Lemma Delete_then_Read_witness :
  exists w1 : World,
    Delete {| v1.DeleteRequest.Api := "v1"; v1.DeleteRequest.Id := 1 |} milkWorld
    = (Return {| v1.DeleteResponse.Api := apiVersion;
                 v1.DeleteResponse.Deleted := 1 |}, w1)
    /\ fst (Read {| v1.ReadRequest.Api := "v1"; v1.ReadRequest.Id := 1 |} w1)
       = Fail {| status.Code := codes.NotFound;
                 status.Message := "ToDo with ID='1' is not found" |}.
Proof.
  apply (Delete_then_Read milkWorld
           {| v1.DeleteRequest.Api := "v1"; v1.DeleteRequest.Id := 1 |} "v1").
  - exact healthy_sample.
  - reflexivity.
  - reflexivity.
  - discriminate.
Defined.

(** X9. Create is not idempotent: on a healthy database, the same valid
    Create issued twice succeeds twice, with the identifier [n] the engine
    assigns next and then [n + 1], and the table ends with two new rows. *)
Theorem Create_twice (w : World) (req : v1.CreateRequest.t) (todo : v1.ToDo)
    (ts : tspb.Timestamp) :
  healthy (driver w) ->
  checkAPI (v1.CreateRequest.Api req) = None ->
  v1.CreateRequest.ToDo req = Some todo ->
  v1.Reminder todo = Some ts ->
  snd (ptypes.Timestamp (Some ts)) = None ->
  let n := sql.AUTO_INCREMENT (table w) in
  let row (id : Z) :=
    {| sql.ID := id; sql.Title := v1.Title todo;
       sql.Description := v1.Description todo;
       sql.Reminder := fst (ptypes.Timestamp (Some ts)) |} in
  exists w1 w2 : World,
    Create req w
    = (Return {| v1.CreateResponse.Api := apiVersion; v1.CreateResponse.Id := n |}, w1)
    /\ Create req w1
       = (Return {| v1.CreateResponse.Api := apiVersion;
                    v1.CreateResponse.Id := n + 1 |}, w2)
    /\ sql.rows (table w2) = (sql.rows (table w) ++ [row n; row (n + 1)])%list.
Proof.
  intros Hh Ha Ht Hr Hv n row.
  change (ptypes.validateTimestamp (Some ts) = None) in Hv.
  eexists. eexists. split; [|split].
  - apply (Create_healthy w req todo ts); auto.
  - rewrite (Create_healthy _ req todo ts) by auto. reflexivity.
  - cbn [table sql.run snd sql.rows sql.AUTO_INCREMENT].
    now rewrite <- app_assoc.
Qed.

Lemma Create_twice_witness :
  exists w1 w2 : World,
    Create {| v1.CreateRequest.Api := "v1"; v1.CreateRequest.ToDo := Some milk |}
           emptyWorld
    = (Return {| v1.CreateResponse.Api := apiVersion; v1.CreateResponse.Id := 1 |}, w1)
    /\ Create {| v1.CreateRequest.Api := "v1"; v1.CreateRequest.ToDo := Some milk |} w1
       = (Return {| v1.CreateResponse.Api := apiVersion; v1.CreateResponse.Id := 2 |}, w2)
    /\ sql.rows (table w2)
       = [milkRow; {| sql.ID := 2; sql.Title := "Buy milk"; sql.Description := "2%";
                      sql.Reminder := sql.Reminder milkRow |}].
Proof.
  apply (Create_twice emptyWorld
           {| v1.CreateRequest.Api := "v1"; v1.CreateRequest.ToDo := Some milk |}
           milk sampleReminder).
  - exact healthy_sample.
  - reflexivity.
  - reflexivity.
  - reflexivity.
  - reflexivity.
Defined.

(** ** Errors of the database layer *)

(** A database whose driver cannot report the identifier of an insert. *)
Definition noLastInsertId : Driver :=
  {| connErr := None; execErr := None;
     lastInsertIdErr := Some "LastInsertId is not supported by this driver";
     rowsAffectedErr := None; queryErr := None; iterErr := None;
     foundRows := false |}.

(** A database whose driver cannot report the rows a statement affected. *)
Definition noRowsAffected : Driver :=
  {| connErr := None; execErr := None; lastInsertIdErr := None;
     rowsAffectedErr := Some "RowsAffected is not supported by this driver";
     queryErr := None; iterErr := None; foundRows := false |}.

(** A database whose cursors break off after [n] rows. *)
Definition brokenCursor (n : nat) : Driver :=
  {| connErr := None; execErr := None; lastInsertIdErr := None;
     rowsAffectedErr := None; queryErr := None;
     iterErr := Some (n, "invalid connection"); foundRows := false |}.

(** A database that refuses statements and queries. *)
Definition refusingStatements : Driver :=
  {| connErr := None; execErr := Some "context deadline exceeded";
     lastInsertIdErr := None; rowsAffectedErr := None;
     queryErr := Some "context deadline exceeded"; iterErr := None;
     foundRows := false |}.

Definition onDriver (d : Driver) (w : World) : World :=
  {| driver := d; table := table w; trace := trace w |}.

(** X10. When the insert succeeds and the driver then fails to report the
    new identifier, Create answers an Internal error although the row is
    stored: nothing undoes the insert. *)
Theorem Create_id_unavailable (w : World) (req : v1.CreateRequest.t)
    (todo : v1.ToDo) (ts : tspb.Timestamp) (err : error) :
  checkAPI (v1.CreateRequest.Api req) = None ->
  v1.CreateRequest.ToDo req = Some todo ->
  v1.Reminder todo = Some ts ->
  snd (ptypes.Timestamp (Some ts)) = None ->
  connErr (driver w) = None ->
  execErr (driver w) = None ->
  lastInsertIdErr (driver w) = Some err ->
  fst (Create req w)
  = Fail (status.Errorf codes.Internal "failed to retrive id for created ToDo, %+v"
            [AError err])
  /\ sql.rows (table (snd (Create req w)))
     = (sql.rows (table w)
        ++ [ {| sql.ID := sql.AUTO_INCREMENT (table w);
                sql.Title := v1.Title todo;
                sql.Description := v1.Description todo;
                sql.Reminder := fst (ptypes.Timestamp (Some ts)) |} ])%list.
Proof.
  intros Ha Ht Hr Hv Hc He Hl.
  change (ptypes.validateTimestamp (Some ts) = None) in Hv.
  destruct w as [[c e li ra q it fr] t tr]. cbn in Hc, He, Hl. subst c e li.
  unfold Create. rewrite Ha, Ht. run. rewrite Hr.
  rewrite (Timestamp_valid ts Hv). cbn. split; reflexivity.
Qed.

Lemma Create_id_unavailable_witness :
  fst (Create {| v1.CreateRequest.Api := "v1"; v1.CreateRequest.ToDo := Some milk |}
         (onDriver noLastInsertId emptyWorld))
  = Fail {| status.Code := codes.Internal;
            status.Message :=
              "failed to retrive id for created ToDo, LastInsertId is not supported by this driver" |}
  /\ sql.rows (table (snd (Create
       {| v1.CreateRequest.Api := "v1"; v1.CreateRequest.ToDo := Some milk |}
       (onDriver noLastInsertId emptyWorld))))
     = [milkRow].
Proof.
  exact (Create_id_unavailable (onDriver noLastInsertId emptyWorld)
           {| v1.CreateRequest.Api := "v1"; v1.CreateRequest.ToDo := Some milk |}
           milk sampleReminder "LastInsertId is not supported by this driver"
           eq_refl eq_refl eq_refl eq_refl eq_refl eq_refl eq_refl).
Defined.

(** X11. When the statement succeeds and the driver then fails to report
    the affected rows, Delete answers an Internal error although the rows
    of the identifier are gone, and Update answers an Internal error
    although the rows of the identifier carry the new values. *)
Theorem count_unavailable (w : World) (err : error) :
  connErr (driver w) = None ->
  execErr (driver w) = None ->
  rowsAffectedErr (driver w) = Some err ->
  (forall dreq : v1.DeleteRequest.t,
     checkAPI (v1.DeleteRequest.Api dreq) = None ->
     fst (Delete dreq w)
     = Fail (status.Errorf codes.Internal "failed to retrieve rows affected, %+v"
               [AError err])
     /\ sql.select_by_id (v1.DeleteRequest.Id dreq) (table (snd (Delete dreq w))) = [])
  /\ (forall (ureq : v1.UpdateRequest.t) (todo : v1.ToDo) (ts : tspb.Timestamp),
        checkAPI (v1.UpdateRequest.Api ureq) = None ->
        v1.UpdateRequest.ToDo ureq = Some todo ->
        v1.Reminder todo = Some ts ->
        snd (ptypes.Timestamp (Some ts)) = None ->
        fst (Update ureq w)
        = Fail (status.Errorf codes.Internal "failed to retrieve rows affected, %+v"
                  [AError err])
        /\ sql.select_by_id (v1.Id todo) (table (snd (Update ureq w)))
           = map (sql.assign (v1.Title todo) (v1.Description todo)
                    (fst (ptypes.Timestamp (Some ts))))
                 (sql.select_by_id (v1.Id todo) (table w))).
Proof.
  intros Hc He Hra.
  destruct w as [[c e li ra q it fr] t tr]. cbn in Hc, He, Hra. subst c e ra.
  split.
  - intros dreq Ha. unfold Delete. rewrite Ha. run.
    split; [reflexivity|].
    unfold sql.select_by_id. cbn [sql.rows]. apply select_after_delete.
  - intros ureq todo ts Ha Ht Hr Hv.
    change (ptypes.validateTimestamp (Some ts) = None) in Hv.
    unfold Update. rewrite Ha, Ht. run. rewrite Hr.
    rewrite (Timestamp_valid ts Hv). cbn.
    split; [reflexivity|].
    unfold sql.select_by_id. cbn [sql.rows].
    now apply select_after_update.
Qed.

Lemma count_unavailable_witness :
  fst (Delete {| v1.DeleteRequest.Api := "v1"; v1.DeleteRequest.Id := 1 |}
         (onDriver noRowsAffected milkWorld))
  = Fail {| status.Code := codes.Internal;
            status.Message :=
              "failed to retrieve rows affected, RowsAffected is not supported by this driver" |}
  /\ sql.rows (table (snd (Delete
       {| v1.DeleteRequest.Api := "v1"; v1.DeleteRequest.Id := 1 |}
       (onDriver noRowsAffected milkWorld)))) = [].
Proof.
  destruct (proj1 (count_unavailable (onDriver noRowsAffected milkWorld)
                     "RowsAffected is not supported by this driver"
                     eq_refl eq_refl eq_refl)
              {| v1.DeleteRequest.Api := "v1"; v1.DeleteRequest.Id := 1 |} eq_refl)
    as [H _].
  split; [exact H | reflexivity].
Defined.

(** X12. When the connection is acquired and the database refuses the
    statement or the query, every operation answers an Internal error that
    carries the database's error: Create, Update and Delete for a refused
    statement (with a valid reminder where one is sent), Read and ReadAll
    for a refused query. *)
Theorem statement_refused (w : World) (err : error) :
  connErr (driver w) = None ->
  (execErr (driver w) = Some err ->
     (forall (req : v1.CreateRequest.t) (todo : v1.ToDo) (ts : tspb.Timestamp),
        checkAPI (v1.CreateRequest.Api req) = None ->
        v1.CreateRequest.ToDo req = Some todo ->
        v1.Reminder todo = Some ts ->
        snd (ptypes.Timestamp (Some ts)) = None ->
        fst (Create req w)
        = Fail (status.Errorf codes.Internal "failed to insert into ToDo, %+v"
                  [AError err]))
     /\ (forall (req : v1.UpdateRequest.t) (todo : v1.ToDo) (ts : tspb.Timestamp),
           checkAPI (v1.UpdateRequest.Api req) = None ->
           v1.UpdateRequest.ToDo req = Some todo ->
           v1.Reminder todo = Some ts ->
           snd (ptypes.Timestamp (Some ts)) = None ->
           fst (Update req w)
           = Fail (status.Errorf codes.Internal "failed to update ToDo, %+v"
                     [AError err]))
     /\ (forall req : v1.DeleteRequest.t,
           checkAPI (v1.DeleteRequest.Api req) = None ->
           fst (Delete req w)
           = Fail (status.Errorf codes.Internal "failed to delete ToDo, %+v"
                     [AError err])))
  /\ (queryErr (driver w) = Some err ->
        (forall req : v1.ReadRequest.t,
           checkAPI (v1.ReadRequest.Api req) = None ->
           fst (Read req w)
           = Fail (status.Errorf codes.Internal "failed to select from ToDo, %+v"
                     [AError err]))
        /\ (forall req : v1.ReadAllRequest.t,
              checkAPI (v1.ReadAllRequest.Api req) = None ->
              fst (ReadAll req w)
              = Fail (status.Errorf codes.Internal "failed to select from ToDo, %+v"
                        [AError err]))).
Proof.
  intros Hc.
  destruct w as [[c e li ra q it fr] t tr]. cbn in Hc. subst c. cbn [driver execErr queryErr].
  split.
  - intros ->. repeat split.
    + intros req todo ts Ha Ht Hr Hv.
      change (ptypes.validateTimestamp (Some ts) = None) in Hv.
      unfold Create. rewrite Ha, Ht. run. rewrite Hr.
      rewrite (Timestamp_valid ts Hv). reflexivity.
    + intros req todo ts Ha Ht Hr Hv.
      change (ptypes.validateTimestamp (Some ts) = None) in Hv.
      unfold Update. rewrite Ha, Ht. run. rewrite Hr.
      rewrite (Timestamp_valid ts Hv). reflexivity.
    + intros req Ha. unfold Delete. rewrite Ha. reflexivity.
  - intros ->. split.
    + intros req Ha. unfold Read. rewrite Ha. reflexivity.
    + intros req Ha. unfold ReadAll. rewrite Ha. reflexivity.
Qed.

Lemma statement_refused_witness :
  fst (Delete {| v1.DeleteRequest.Api := "v1"; v1.DeleteRequest.Id := 1 |}
         (onDriver refusingStatements milkWorld))
  = Fail {| status.Code := codes.Internal;
            status.Message := "failed to delete ToDo, context deadline exceeded" |}
  /\ fst (ReadAll {| v1.ReadAllRequest.Api := "v1" |}
            (onDriver refusingStatements milkWorld))
     = Fail {| status.Code := codes.Internal;
               status.Message := "failed to select from ToDo, context deadline exceeded" |}.
Proof.
  destruct (statement_refused (onDriver refusingStatements milkWorld)
              "context deadline exceeded" eq_refl) as [He Hq].
  split.
  - exact (proj2 (proj2 (He eq_refl))
             {| v1.DeleteRequest.Api := "v1"; v1.DeleteRequest.Id := 1 |} eq_refl).
  - exact (proj2 (Hq eq_refl) {| v1.ReadAllRequest.Api := "v1" |} eq_refl).
Defined.

(** ** A cursor that breaks off *)

(** X13. When the cursor of Read breaks off before its first row, Read
    answers an Internal error carrying the cursor's error, not NotFound,
    whether or not a row matches the identifier. *)
Theorem Read_cursor_breaks_at_once (w : World) (req : v1.ReadRequest.t) (err : error) :
  checkAPI (v1.ReadRequest.Api req) = None ->
  connErr (driver w) = None ->
  queryErr (driver w) = None ->
  iterErr (driver w) = Some (0%nat, err) ->
  fst (Read req w)
  = Fail (status.Errorf codes.Internal "failed to retrieve data from ToDo, %+v"
            [AError err]).
Proof.
  intros Ha Hc Hq Hi.
  destruct w as [[c e li ra q it fr] t tr]. cbn in Hc, Hq, Hi. subst c q it.
  unfold Read. rewrite Ha. reflexivity.
Qed.

Lemma Read_cursor_breaks_at_once_witness :
  fst (Read {| v1.ReadRequest.Api := "v1"; v1.ReadRequest.Id := 1 |}
         (onDriver (brokenCursor 0) milkWorld))
  = Fail {| status.Code := codes.Internal;
            status.Message := "failed to retrieve data from ToDo, invalid connection" |}.
Proof.
  exact (Read_cursor_breaks_at_once (onDriver (brokenCursor 0) milkWorld)
           {| v1.ReadRequest.Api := "v1"; v1.ReadRequest.Id := 1 |}
           "invalid connection" eq_refl eq_refl eq_refl eq_refl).
Defined.

(** X15. Read looks at [rows.Err()] only when its first [Next] fails. When
    the cursor breaks off after the first row, the second [Next] answers
    false like the end of the rows: Read returns the entity of that row and
    the cursor's error is lost, also when further rows match the
    identifier. *)
Theorem Read_cursor_breaks_after_first (w : World) (req : v1.ReadRequest.t)
    (err : error) (r : sql.Row) (rest : list sql.Row) (ts : tspb.Timestamp) :
  checkAPI (v1.ReadRequest.Api req) = None ->
  connErr (driver w) = None ->
  queryErr (driver w) = None ->
  iterErr (driver w) = Some (1%nat, err) ->
  sql.select_by_id (v1.ReadRequest.Id req) (table w) = r :: rest ->
  ptypes.TimestampProto (sql.Reminder r) = (Some ts, None) ->
  fst (Read req w)
  = Return {| v1.ReadResponse.Api := apiVersion;
              v1.ReadResponse.ToDo :=
                Some {| v1.Id := sql.ID r; v1.Title := sql.Title r;
                        v1.Description := sql.Description r;
                        v1.Reminder := Some ts |} |}.
Proof.
  intros Ha Hc Hq Hi Hs Hts.
  destruct w as [[c e li ra q it fr] t tr]. cbn in Hc, Hq, Hi, Hs. subst c q it.
  unfold Read. rewrite Ha. run. rewrite Hs. cbn. rewrite Hts. reflexivity.
Qed.

(** The table of [milkWorld] with a second row under the identifier 1. *)
Definition doubledWorld : World :=
  {| driver := brokenCursor 1;
     table := {| sql.rows := [milkRow; lateRow]; sql.AUTO_INCREMENT := 2 |};
     trace := [] |}.

Lemma Read_cursor_breaks_after_first_witness :
  fst (Read {| v1.ReadRequest.Api := "v1"; v1.ReadRequest.Id := 1 |} doubledWorld)
  = Return {| v1.ReadResponse.Api := apiVersion;
              v1.ReadResponse.ToDo :=
                Some {| v1.Id := 1; v1.Title := "Buy milk"; v1.Description := "2%";
                        v1.Reminder := Some sampleReminder |} |}.
Proof.
  exact (Read_cursor_breaks_after_first doubledWorld
           {| v1.ReadRequest.Api := "v1"; v1.ReadRequest.Id := 1 |}
           "invalid connection" milkRow [lateRow] sampleReminder
           eq_refl eq_refl eq_refl eq_refl eq_refl eq_refl).
Defined.

(** X16. When the cursor of ReadAll delivers no row and ends with an
    error (it breaks off before the first row, or the table is empty and
    the iteration fails), ReadAll answers an Internal error carrying the
    cursor's error, not the empty sequence. *)
Theorem ReadAll_cursor_breaks (w : World) (req : v1.ReadAllRequest.t)
    (n : nat) (err : error) :
  checkAPI (v1.ReadAllRequest.Api req) = None ->
  connErr (driver w) = None ->
  queryErr (driver w) = None ->
  iterErr (driver w) = Some (n, err) ->
  n = 0%nat \/ sql.rows (table w) = [] ->
  fst (ReadAll req w)
  = Fail (status.Errorf codes.Internal "failed to retrieve data from ToDo rows, %+v"
            [AError err]).
Proof.
  intros Ha Hc Hq Hi Hn.
  destruct w as [[c e li ra q it fr] t tr]. cbn in Hc, Hq, Hi, Hn. subst c q it.
  unfold ReadAll. rewrite Ha. run. unfold sql.select_all.
  destruct Hn as [-> | ->].
  - reflexivity.
  - rewrite firstn_nil. reflexivity.
Qed.

Lemma ReadAll_cursor_breaks_witness :
  fst (ReadAll {| v1.ReadAllRequest.Api := "v1" |} (onDriver (brokenCursor 0) milkWorld))
  = Fail {| status.Code := codes.Internal;
            status.Message :=
              "failed to retrieve data from ToDo rows, invalid connection" |}.
Proof.
  apply (ReadAll_cursor_breaks (onDriver (brokenCursor 0) milkWorld)
           {| v1.ReadAllRequest.Api := "v1" |} 0 "invalid connection").
  - reflexivity.
  - reflexivity.
  - reflexivity.
  - reflexivity.
  - left. reflexivity.
Defined.

(** ** What the handlers never answer *)

(** X17. The only panic of the service is the one of Create on a request
    without a ToDo message, after the version was accepted and the
    connection acquired: no other operation and no other Create panics,
    whatever the database layer answers. *)
Theorem panic_only_in_Create (r : Request) (w : World) (msg : string) :
  fst (serve r w) = Panic msg ->
  exists req : v1.CreateRequest.t,
    r = CreateReq req
    /\ v1.CreateRequest.ToDo req = None
    /\ checkAPI (v1.CreateRequest.Api req) = None
    /\ connErr (driver w) = None.
Proof.
  destruct w as [[c e li ra q it fr] t tr].
  destruct r as [r|r|r|r|r]; unfold serve.
  - unfold Create. run.
    destruct (checkAPI _) eqn:Ha; cbn; [discriminate|].
    destruct c; cbn; [discriminate|].
    destruct (v1.CreateRequest.ToDo r) as [todo|] eqn:Ht; cbn.
    + destruct (ptypes.Timestamp _) as [rem [err|]]; cbn; [discriminate|].
      destruct e; cbn; [discriminate|].
      destruct li; cbn; discriminate.
    + intros _. exists r. auto.
  - unfold Read. run.
    destruct (checkAPI _); cbn; [discriminate|].
    destruct c; cbn; [discriminate|].
    destruct q; cbn; [discriminate|].
    destruct it as [[n err]|]; cbn;
      [destruct (firstn n _) as [|r0 [|r1 l]]
      |destruct (sql.select_by_id _ _) as [|r0 [|r1 l]]]; cbn;
      try (destruct (ptypes.TimestampProto _) as [ts [err'|]]; cbn);
      discriminate.
  - unfold Update. run.
    destruct (checkAPI _); cbn; [discriminate|].
    destruct c; cbn; [discriminate|].
    destruct (ptypes.Timestamp _) as [rem [err|]]; cbn; [discriminate|].
    destruct e; cbn; [discriminate|].
    destruct ra; cbn; [discriminate|].
    destruct (_ =? 0); discriminate.
  - unfold Delete. run.
    destruct (checkAPI _); cbn; [discriminate|].
    destruct c; cbn; [discriminate|].
    destruct e; cbn; [discriminate|].
    destruct ra; cbn; [discriminate|].
    destruct (_ =? 0); discriminate.
  - unfold ReadAll. run.
    destruct (checkAPI _); cbn; [discriminate|].
    destruct c; cbn; [discriminate|].
    destruct q; cbn; [discriminate|].
    assert (Hbody : forall rs s m, ReadAll_body rs s <> Panic m).
    { intros rs [rem l] m. unfold ReadAll_body.
      destruct (sql.Scan _ _ _ _ _ _) as [[err|] rem']; [discriminate|].
      destruct (ptypes.TimestampProto rem') as [ts [err|]]; discriminate. }
    assert (Hloop : forall pending lasterr s m,
              fst (forNext ReadAll_body pending lasterr s) <> Panic m).
    { intros pending. induction pending as [|r0 rest IH]; intros lasterr s m; cbn.
      - discriminate.
      - destruct (ReadAll_body _ s) as [s'|st'|m'] eqn:E; cbn.
        + apply IH.
        + discriminate.
        + now apply Hbody in E. }
    destruct it as [[n err]|]; cbn.
    + pose proof (Hloop (firstn n (sql.select_all t)) (Some err) (time.zero, [])) as H.
      destruct (forNext _ _ _ _) as [[[rem l]|st'|msg'] rs]; cbn in *;
        try discriminate.
      * destruct (sql.Err rs); discriminate.
      * intros _. now specialize (H msg').
    + pose proof (Hloop (sql.select_all t) None (time.zero, [])) as H.
      destruct (forNext _ _ _ _) as [[[rem l]|st'|msg'] rs]; cbn in *;
        try discriminate.
      * destruct (sql.Err rs); discriminate.
      * intros _. now specialize (H msg').
Qed.

Lemma panic_only_in_Create_witness :
  exists req : v1.CreateRequest.t,
    CreateReq {| v1.CreateRequest.Api := ""; v1.CreateRequest.ToDo := None |}
    = CreateReq req
    /\ v1.CreateRequest.ToDo req = None
    /\ checkAPI (v1.CreateRequest.Api req) = None
    /\ connErr (driver milkWorld) = None.
Proof.
  exact (panic_only_in_Create
           (CreateReq {| v1.CreateRequest.Api := ""; v1.CreateRequest.ToDo := None |})
           milkWorld
           "runtime error: invalid memory address or nil pointer dereference"
           eq_refl).
Defined.

(** The codes an operation can fail with, beside the version guard's
    Unimplemented and the Internal of the database layer: InvalidArgument
    belongs to the operations that receive a reminder, NotFound to the ones
    that address a row. *)
Definition may_fail_with (r : Request) (c : codes.Code) : bool :=
  match r, c with
  | _, codes.Unimplemented | _, codes.Internal => true
  | CreateReq _, codes.InvalidArgument => true
  | UpdateReq _, codes.InvalidArgument | UpdateReq _, codes.NotFound => true
  | ReadReq _, codes.NotFound | DeleteReq _, codes.NotFound => true
  | _, _ => false
  end.

(** X18. Whatever the request and whatever the database layer answers,
    Create never fails with NotFound, Read and Delete never fail with
    InvalidArgument, and ReadAll fails with Unimplemented or Internal
    only. *)
Theorem error_codes_by_operation (r : Request) (w : World) (st : status.Status) :
  fst (serve r w) = Fail st -> may_fail_with r (status.Code st) = true.
Proof.
  destruct w as [[c e li ra q it fr] t tr].
  destruct r as [r|r|r|r|r]; unfold serve.
  - unfold Create. run.
    destruct (checkAPI _) as [st0|] eqn:Ha; cbn.
    { intros H. injection H as <-. revert Ha. unfold checkAPI.
      destruct (0 <? _); [|discriminate].
      destruct (negb _); [|discriminate].
      intros H. injection H as <-. reflexivity. }
    destruct c; cbn; [intros H; injection H as <-; reflexivity|].
    destruct (v1.CreateRequest.ToDo r) as [todo|]; cbn; [|discriminate].
    destruct (ptypes.Timestamp _) as [rem [err|]]; cbn;
      [intros H; injection H as <-; reflexivity|].
    destruct e; cbn; [intros H; injection H as <-; reflexivity|].
    destruct li; cbn; [intros H; injection H as <-; reflexivity|].
    discriminate.
  - unfold Read. run.
    destruct (checkAPI _) as [st0|] eqn:Ha; cbn.
    { intros H. injection H as <-. revert Ha. unfold checkAPI.
      destruct (0 <? _); [|discriminate].
      destruct (negb _); [|discriminate].
      intros H. injection H as <-. reflexivity. }
    destruct c; cbn; [intros H; injection H as <-; reflexivity|].
    destruct q; cbn; [intros H; injection H as <-; reflexivity|].
    destruct it as [[n err]|]; cbn;
      [destruct (firstn n _) as [|r0 [|r1 l]]
      |destruct (sql.select_by_id _ _) as [|r0 [|r1 l]]]; cbn;
      try (destruct (ptypes.TimestampProto _) as [ts [err'|]]; cbn);
      try discriminate;
      intros H; injection H as <-; reflexivity.
  - unfold Update. run.
    destruct (checkAPI _) as [st0|] eqn:Ha; cbn.
    { intros H. injection H as <-. revert Ha. unfold checkAPI.
      destruct (0 <? _); [|discriminate].
      destruct (negb _); [|discriminate].
      intros H. injection H as <-. reflexivity. }
    destruct c; cbn; [intros H; injection H as <-; reflexivity|].
    destruct (ptypes.Timestamp _) as [rem [err|]]; cbn;
      [intros H; injection H as <-; reflexivity|].
    destruct e; cbn; [intros H; injection H as <-; reflexivity|].
    destruct ra; cbn; [intros H; injection H as <-; reflexivity|].
    destruct (_ =? 0); cbn; [|discriminate].
    intros H. injection H as <-. reflexivity.
  - unfold Delete. run.
    destruct (checkAPI _) as [st0|] eqn:Ha; cbn.
    { intros H. injection H as <-. revert Ha. unfold checkAPI.
      destruct (0 <? _); [|discriminate].
      destruct (negb _); [|discriminate].
      intros H. injection H as <-. reflexivity. }
    destruct c; cbn; [intros H; injection H as <-; reflexivity|].
    destruct e; cbn; [intros H; injection H as <-; reflexivity|].
    destruct ra; cbn; [intros H; injection H as <-; reflexivity|].
    destruct (_ =? 0); cbn; [|discriminate].
    intros H. injection H as <-. reflexivity.
  - unfold ReadAll. run.
    destruct (checkAPI _) as [st0|] eqn:Ha; cbn.
    { intros H. injection H as <-. revert Ha. unfold checkAPI.
      destruct (0 <? _); [|discriminate].
      destruct (negb _); [|discriminate].
      intros H. injection H as <-. reflexivity. }
    destruct c; cbn; [intros H; injection H as <-; reflexivity|].
    destruct q; cbn; [intros H; injection H as <-; reflexivity|].
    destruct it as [[n err]|]; cbn.
    + pose proof (forNext_Fail ReadAll_body _ ReadAll_body_Fail
                    (firstn n (sql.select_all t)) (Some err) (time.zero, [])) as HF.
      destruct (forNext _ _ _ _) as [[[rem l]|st'|msg'] rs]; cbn in *.
      * destruct (sql.Err rs); cbn; [|discriminate].
        intros H. injection H as <-. reflexivity.
      * intros H. injection H as <-. now rewrite (HF st' eq_refl).
      * discriminate.
    + pose proof (forNext_Fail ReadAll_body _ ReadAll_body_Fail
                    (sql.select_all t) None (time.zero, [])) as HF.
      destruct (forNext _ _ _ _) as [[[rem l]|st'|msg'] rs]; cbn in *.
      * destruct (sql.Err rs); cbn; [|discriminate].
        intros H. injection H as <-. reflexivity.
      * intros H. injection H as <-. now rewrite (HF st' eq_refl).
      * discriminate.
Qed.

Lemma error_codes_by_operation_witness :
  may_fail_with (ReadReq {| v1.ReadRequest.Api := "v1"; v1.ReadRequest.Id := 7 |})
                codes.NotFound = true.
Proof.
  exact (error_codes_by_operation
           (ReadReq {| v1.ReadRequest.Api := "v1"; v1.ReadRequest.Id := 7 |})
           milkWorld
           {| status.Code := codes.NotFound;
              status.Message := "ToDo with ID='7' is not found" |}
           eq_refl).
Defined.

(** X19. A successful Update or Delete never reports a count of zero,
    whatever the database layer answers: a statement that affected no row
    is answered with an error. *)
Theorem reported_count_nonzero (w w' : World) :
  (forall (req : v1.UpdateRequest.t) (resp : v1.UpdateResponse.t),
     Update req w = (Return resp, w') -> v1.UpdateResponse.Updated resp <> 0)
  /\ (forall (req : v1.DeleteRequest.t) (resp : v1.DeleteResponse.t),
        Delete req w = (Return resp, w') -> v1.DeleteResponse.Deleted resp <> 0).
Proof.
  destruct w as [[c e li ra q it fr] t tr].
  split; intros req resp.
  - unfold Update. run.
    destruct (checkAPI _); cbn; [discriminate|].
    destruct c; cbn; [discriminate|].
    destruct (ptypes.Timestamp _) as [rem [err|]]; cbn; [discriminate|].
    destruct e; cbn; [discriminate|].
    destruct ra; cbn; [discriminate|].
    destruct (_ =? 0) eqn:E; cbn; [discriminate|].
    intros H. injection H as <- _. cbn. now apply Z.eqb_neq.
  - unfold Delete. run.
    destruct (checkAPI _); cbn; [discriminate|].
    destruct c; cbn; [discriminate|].
    destruct e; cbn; [discriminate|].
    destruct ra; cbn; [discriminate|].
    destruct (_ =? 0) eqn:E; cbn; [discriminate|].
    intros H. injection H as <- _. cbn. now apply Z.eqb_neq.
Qed.

Lemma reported_count_nonzero_witness :
  v1.DeleteResponse.Deleted
    {| v1.DeleteResponse.Api := "v1"; v1.DeleteResponse.Deleted := 1 |} <> 0.
Proof.
  exact (proj2 (reported_count_nonzero milkWorld _)
           {| v1.DeleteRequest.Api := "v1"; v1.DeleteRequest.Id := 1 |}
           {| v1.DeleteResponse.Api := "v1"; v1.DeleteResponse.Deleted := 1 |}
           eq_refl).
Defined.

(** Two Creates of [milk] and a Delete of the first of them, each with
    the behaviour of the database layer it meets: the first Create cannot
    learn its identifier, the second is served by a healthy database, the
    Delete cannot learn its count. *)
Definition sampleRequests : list (Driver * Request) :=
  [(noLastInsertId,
    CreateReq {| v1.CreateRequest.Api := "v1"; v1.CreateRequest.ToDo := Some milk |});
   (healthyDriver,
    CreateReq {| v1.CreateRequest.Api := "v1"; v1.CreateRequest.ToDo := Some milk |});
   (noRowsAffected,
    DeleteReq {| v1.DeleteRequest.Api := ""; v1.DeleteRequest.Id := 1 |})].

(** The world after a sequence of requests, each served by the database
    layer as it behaves for that request. *)
Definition serve_all (rs : list (Driver * Request)) (w : World) : World :=
  fold_left (fun w dr => snd (serve (snd dr) (onDriver (fst dr) w))) rs w.

(** X20. Fresh identifiers and the key hold in every table the service
    reaches from one where they hold: after any sequence of requests,
    whatever the database layer answers to each of them, its behaviour
    being free to change from one request to the next. *)
Theorem invariant_along_requests (rs : list (Driver * Request)) (w : World) :
  fresh_ids (table w) /\ unique_ids (table w) ->
  fresh_ids (table (serve_all rs w)) /\ unique_ids (table (serve_all rs w)).
Proof.
  unfold serve_all. revert w.
  induction rs as [|[d r] rs IH]; intros w H; cbn [fold_left].
  - exact H.
  - apply IH. cbn [fst snd]. apply serve_invariant. exact H.
Qed.

Lemma invariant_along_requests_witness :
  fresh_ids (table (serve_all sampleRequests emptyWorld))
  /\ unique_ids (table (serve_all sampleRequests emptyWorld)).
Proof.
  apply (invariant_along_requests sampleRequests emptyWorld).
  exact emptyWorld_invariant.
Defined.
